(** * Patent Search Assistant: the review workflow of [app.py]

    A shallow embedding of the Streamlit script [src/app.py]: the session
    store, one run of [main] under given widget inputs and a given answer
    of the extraction collaborator, and the text processing of the
    keyword editor. *)

From Stdlib Require Import Floats.PrimFloat.
From stdpp Require Import base option list strings gmap.

Set Default Proof Using "Type".

(** ** Python strings *)

(** A Python [str] is a sequence of Unicode code points. *)
Module PyStr.

Abbreviation char := N (only parsing).
Abbreviation str := (list N) (only parsing).

(** Literals of the script, written as ASCII strings. *)
Definition of_string (s : string) : str :=
  map Ascii.N_of_ascii (String.list_ascii_of_string s).

Arguments of_string : simpl never.

Definition comma : char := 44%N.

(** [str.isspace] on one code point: the characters [str.strip()]
    removes when called without an argument. *)
Definition is_space (c : char) : bool :=
  ((9 <=? c) && (c <=? 13) || (28 <=? c) && (c <=? 32)
   || (c =? 133) || (c =? 160) || (c =? 5760)
   || (8192 <=? c) && (c <=? 8202)
   || (c =? 8232) || (c =? 8233) || (c =? 8239) || (c =? 8287)
   || (c =? 12288))%N.

(** [s.lstrip()] *)
Fixpoint lstrip (s : str) : str :=
  match s with
  | [] => []
  | c :: s' => if is_space c then lstrip s' else s
  end.

(** [s.rstrip()] *)
Definition rstrip (s : str) : str := reverse (lstrip (reverse s)).

(** [s.strip()] *)
Definition strip (s : str) : str := rstrip (lstrip s).

(** [s.split(sep)] for a one-character separator: one piece more than
    there are separators, the empty string gives one empty piece. *)
Fixpoint split (sep : char) (s : str) : list str :=
  match s with
  | [] => [[]]
  | c :: s' =>
      if (c =? sep)%N then [] :: split sep s'
      else match split sep s' with
           | [] => [[c]]
           | p :: ps => (c :: p) :: ps
           end
  end.

(** [sep.join(l)] *)
Fixpoint join (sep : str) (l : list str) : str :=
  match l with
  | [] => []
  | [x] => x
  | x :: l' => x ++ sep ++ join sep l'
  end.

(** Truth value of a string: non-empty. *)
Definition truthy (s : str) : bool :=
  match s with [] => false | _ => true end.

End PyStr.

Import PyStr.

(** ** Data model *)

(** Modelled from the spec: the records the extraction collaborator
    returns are declared outside this file; they have the three fixed
    categories, free text in the concept matrix and an ordered sequence
    of keywords per category in the seed keywords. *)
Record ConceptMatrix := mkConceptMatrix {
  cm_problem_purpose : str;
  cm_object_system : str;
  cm_environment_field : str }.

Record SeedKeywords := mkSeedKeywords {
  sk_problem_purpose : list str;
  sk_object_system : list str;
  sk_environment_field : list str }.

(** One entry of [final_url]. *)
Record SearchResult := mkSearchResult {
  url : str;
  user_scenario : float;
  user_problem : float }.

(** What [extract_keywords] returns, as far as the script reads it: the
    three keys it asks for with [get], each of which may be missing. *)
Record Results := mkResults {
  r_concept_matrix : option ConceptMatrix;
  r_seed_keywords : option SeedKeywords;
  r_final_url : option (list SearchResult) }.

(** The feedback dictionaries the script builds, by their [action]. *)
Inductive Feedback :=
| FApprove
| FReject (feedback_text : str)
| FEdit (edited : gmap string (list str)).

(** A dictionary whose order of keys is observable ([items()]). *)
Definition pydict (V : Type) := list (string * V).

Fixpoint dict_lookup {V} (k : string) (d : pydict V) : option V :=
  match d with
  | [] => None
  | (k', v) :: d' => if String.eqb k k' then Some v else dict_lookup k d'
  end.

(** [.dict()] of the two records, keys in display order. *)
Definition cm_dict (c : ConceptMatrix) : pydict str :=
  [("problem_purpose", cm_problem_purpose c);
   ("object_system", cm_object_system c);
   ("environment_field", cm_environment_field c)].

Definition sk_dict (k : SeedKeywords) : pydict (list str) :=
  [("problem_purpose", sk_problem_purpose k);
   ("object_system", sk_object_system k);
   ("environment_field", sk_environment_field k)].

(** ** Session state *)

(** [st.session_state]: every attribute is absent ([None]) until it is
    assigned; an assigned attribute holds a Python value of the type the
    script gives it, where Python's [None] is the inner [None]. *)
Record session := mkSession {
  extractor : option unit;
  current_state : option (option Results);
  concept_matrix : option (option ConceptMatrix);
  seed_keywords : option (option SeedKeywords);
  keywords_approved : option bool;
  feedback : option (option Feedback);
  edited_keywords : option (option (gmap string (list str)));
  editing : option bool }.

(** A session nothing was stored in yet. *)
Definition fresh : session :=
  mkSession None None None None None None None None.

Definition set_extractor (v : unit) (s : session) : session :=
  mkSession (Some v) (current_state s) (concept_matrix s) (seed_keywords s)
    (keywords_approved s) (feedback s) (edited_keywords s) (editing s).

Definition set_current_state (v : option Results) (s : session) : session :=
  mkSession (extractor s) (Some v) (concept_matrix s) (seed_keywords s)
    (keywords_approved s) (feedback s) (edited_keywords s) (editing s).

Definition set_concept_matrix (v : option ConceptMatrix) (s : session) : session :=
  mkSession (extractor s) (current_state s) (Some v) (seed_keywords s)
    (keywords_approved s) (feedback s) (edited_keywords s) (editing s).

Definition set_seed_keywords (v : option SeedKeywords) (s : session) : session :=
  mkSession (extractor s) (current_state s) (concept_matrix s) (Some v)
    (keywords_approved s) (feedback s) (edited_keywords s) (editing s).

Definition set_keywords_approved (v : bool) (s : session) : session :=
  mkSession (extractor s) (current_state s) (concept_matrix s) (seed_keywords s)
    (Some v) (feedback s) (edited_keywords s) (editing s).

Definition set_feedback (v : option Feedback) (s : session) : session :=
  mkSession (extractor s) (current_state s) (concept_matrix s) (seed_keywords s)
    (keywords_approved s) (Some v) (edited_keywords s) (editing s).

Definition set_edited_keywords (v : option (gmap string (list str)))
    (s : session) : session :=
  mkSession (extractor s) (current_state s) (concept_matrix s) (seed_keywords s)
    (keywords_approved s) (feedback s) (Some v) (editing s).

Definition set_editing (v : bool) (s : session) : session :=
  mkSession (extractor s) (current_state s) (concept_matrix s) (seed_keywords s)
    (keywords_approved s) (feedback s) (edited_keywords s) (Some v).

(** ** Effects of one run *)

Inductive exn :=
| AttributeError (name : string)
| KeyError (key : string)
| TypeError (what : string)
| ExtractorError (what : string).

Inductive result (A : Type) :=
| Ok (a : A)
| Raise (e : exn).
Arguments Ok {A} a.
Arguments Raise {A} e.

(** What a run shows to the user, call by call, and the calls it makes
    to the collaborator. Icons, dividers, layout arguments and the
    spinner around the call are left out; input widgets are inputs of
    the run (see [widgets]). *)
Inductive event :=
| Title (s : str)
| Markdown (s : str)
| Subheader (s : str)
| Info (s : str)
| Success (s : str)
| Write (s : str)
| WriteScore (label : str) (x : float)
| Expander (s : str)
| NewExtractor
| ExtractKeywords (input : str).

Record world := mkWorld {
  store : session;
  trace : list event }.

(** A computation reads and writes the session, appends to the trace and
    may raise; what was assigned before a raise stays assigned. *)
Definition M (A : Type) : Type := world → result A * world.

Global Instance M_ret : MRet M := λ A a w, (Ok a, w).

Global Instance M_bind : MBind M := λ A B f m w,
  match m w with
  | (Ok a, w') => f a w'
  | (Raise e, w') => (Raise e, w')
  end.

Definition raise {A} (e : exn) : M A := λ w, (Raise e, w).

Definition emit (e : event) : M unit :=
  λ w, (Ok tt, mkWorld (store w) (trace w ++ [e])).

(** [st.session_state.name], an [AttributeError] when never assigned. *)
Definition getattr {A} (name : string) (f : session → option A) : M A :=
  λ w, match f (store w) with
       | Some v => (Ok v, w)
       | None => (Raise (AttributeError name), w)
       end.

(** [st.session_state.name = v], through the setter of that attribute. *)
Definition setattr (upd : session → session) : M unit :=
  λ w, (Ok tt, mkWorld (upd (store w)) (trace w)).

(** [if name not in st.session_state: body] *)
Definition if_absent {A} (f : session → option A) (body : M unit) : M unit :=
  λ w, match f (store w) with
       | Some _ => (Ok tt, w)
       | None => body w
       end.

(** [for x in l: body x] *)
Fixpoint for_each {A} (l : list A) (body : A → M unit) : M unit :=
  match l with
  | [] => mret tt
  | x :: l' => body x ;; for_each l' body
  end.

(** [d[key]] *)
Definition getitem {V} (key : string) (d : pydict V) : M V :=
  match dict_lookup key d with
  | Some v => mret v
  | None => raise (KeyError key)
  end.

(** [x.dict()] on a value that may be [None]. *)
Definition dict_of {R V} (to_dict : R → pydict V) (x : option R) : M (pydict V) :=
  match x with
  | Some r => mret (to_dict r)
  | None => raise (AttributeError "dict")
  end.

(** [x.get(key)] on a result that may be [None]. *)
Definition results_get {V} (field : Results → option V)
    (x : option Results) : M (option V) :=
  match x with
  | Some r => mret (field r)
  | None => raise (AttributeError "get")
  end.

(** [x[key]] on a result that may be [None]. *)
Definition results_item {V} (key : string) (field : Results → option V)
    (x : option Results) : M V :=
  match x with
  | Some r =>
      match field r with
      | Some v => mret v
      | None => raise (KeyError key)
      end
  | None => raise (TypeError "'NoneType' object is not subscriptable")
  end.

(** Truth value of an object that may be [None]. *)
Definition is_set {A} (x : option A) : bool :=
  match x with Some _ => true | None => false end.

(** Truth value of a list that may be [None]. *)
Definition nonempty {A} (x : option (list A)) : bool :=
  match x with Some (_ :: _) => true | _ => false end.

(** ** Inputs of one run *)

(** What the input widgets return during one run of the script: the text
    of the idea, which buttons report a click, the text typed for the
    rejection, and the state the toolkit keeps for the keyed text areas
    of the editor (a key is missing until the user typed there). *)
Record widgets := mkWidgets {
  input_text : str;
  start_button : bool;
  approve_button : bool;
  reject_button : bool;
  reject_feedback : str;
  submit_button : bool;
  edit_button : bool;
  edit_text : gmap string str;
  save_button : bool }.

(** [st.text_area(label, value=value, key=key)]: the text the user typed
    under that key, the given value when there is none. *)
Definition text_area (typed : gmap string str) (key : string) (value : str) : str :=
  default value (typed !! key).

(** The extraction collaborator during one run: for the text it is
    given, it raises, or returns a result, which in Python may be [None]. *)
Definition extractor_fn := str → result (option Results).

Definition extract_keywords (ext : extractor_fn) (text : str) : M (option Results) :=
  λ w, let w' := mkWorld (store w) (trace w ++ [ExtractKeywords text]) in
       match ext text with
       | Ok r => (Ok r, w')
       | Raise e => (Raise e, w')
       end.

(** ** The script *)

(** Lines 10-26. *)
Definition display_concept_matrix (concept_matrix : pydict str) : M unit :=
  emit (Subheader (128202%N :: of_string " Concept Matrix")) ;;
  emit (Info (of_string "Problem/Purpose")) ;;
  x ← getitem "problem_purpose" concept_matrix ;
  emit (Write x) ;;
  emit (Info (of_string "Object/System")) ;;
  x ← getitem "object_system" concept_matrix ;
  emit (Write x) ;;
  emit (Info (of_string "Environment/Field")) ;;
  x ← getitem "environment_field" concept_matrix ;
  emit (Write x).

(** The bullet line written for one keyword. *)
Definition bullet (kw : str) : str := 8226%N :: 32%N :: kw.

(** Lines 28-47. *)
Definition display_seed_keywords (seed_keywords : pydict (list str)) : M unit :=
  emit (Subheader (128273%N :: of_string " Generated Keywords")) ;;
  emit (Info (of_string "Problem/Purpose Keywords")) ;;
  kws ← getitem "problem_purpose" seed_keywords ;
  for_each kws (λ kw, emit (Write (bullet kw))) ;;
  emit (Info (of_string "Object/System Keywords")) ;;
  kws ← getitem "object_system" seed_keywords ;
  for_each kws (λ kw, emit (Write (bullet kw))) ;;
  emit (Info (of_string "Environment/Field Keywords")) ;;
  kws ← getitem "environment_field" seed_keywords ;
  for_each kws (λ kw, emit (Write (bullet kw))).

(** Lines 49-64. *)
Definition init_session_state : M unit :=
  if_absent extractor (emit NewExtractor ;; setattr (set_extractor tt)) ;;
  if_absent current_state (setattr (set_current_state None)) ;;
  if_absent concept_matrix (setattr (set_concept_matrix None)) ;;
  if_absent seed_keywords (setattr (set_seed_keywords None)) ;;
  if_absent keywords_approved (setattr (set_keywords_approved false)) ;;
  if_absent feedback (setattr (set_feedback None)) ;;
  if_absent edited_keywords (setattr (set_edited_keywords None)).

(** Lines 89-96: the Start Analysis button. *)
Definition start_analysis (ext : extractor_fn) (w : widgets) : M unit :=
  if start_button w && truthy (input_text w) then
    _ ← getattr "extractor" extractor ;
    results ← extract_keywords ext (input_text w) ;
    setattr (set_current_state results) ;;
    cm ← results_get r_concept_matrix results ;
    setattr (set_concept_matrix cm) ;;
    sk ← results_get r_seed_keywords results ;
    setattr (set_seed_keywords sk) ;;
    emit (Success (9989%N :: of_string " Initial analysis complete!"))
  else mret tt.

(** Lines 111-113: what a click on Approve does. *)
Definition approve : M unit :=
  setattr (set_keywords_approved true) ;;
  setattr (set_feedback (Some FApprove)) ;;
  emit (Success (of_string "Keywords approved! Processing will continue...")).

(** Lines 119-123: what Submit Feedback does with the rejection text. *)
Definition reject (feedback_text : str) : M unit :=
  setattr (set_feedback (Some (FReject feedback_text))) ;;
  emit (Info (of_string "Feedback submitted, regenerating keywords...")).

(** Line 141: the keywords typed into one text area. *)
Definition parse_keywords (new_input : str) : list str :=
  map strip (List.filter (λ k, truthy (strip k)) (split comma new_input)).

(** Lines 135-140: the text of the text area of one field, pre-filled
    with the current keywords of that field. *)
Definition edit_input (typed : gmap string str) (field : string)
    (keywords : list str) : str :=
  let current_str := join (of_string ", ") keywords in
  text_area typed ("edit_" +:+ field) current_str.

(** Lines 130-141: the dictionary the editor builds, one entry per field
    of the seed keywords. *)
Definition edit_fields (typed : gmap string str)
    (items : pydict (list str)) : gmap string (list str) :=
  fold_left
    (λ edited '(field, keywords),
       let new_input := edit_input typed field keywords in
       <[field := parse_keywords new_input]> edited)
    items ∅.

(** Lines 144-148: what Save Edited Keywords does. *)
Definition save_edited (edited : gmap string (list str)) : M unit :=
  setattr (set_feedback (Some (FEdit edited))) ;;
  emit (Success (of_string "Keywords updated!")).

(** Lines 127-148: what a click on Edit Keywords does. *)
Definition edit_keywords (w : widgets) : M unit :=
  setattr (set_editing true) ;;
  emit (Info (of_string "Edit Keywords - Enter new keywords separated by commas")) ;;
  sk ← getattr "seed_keywords" seed_keywords ;
  items ← dict_of sk_dict sk ;
  let edited := edit_fields (edit_text w) items in
  if save_button w then save_edited edited else mret tt.

(** Lines 106-148: the three action buttons, in the order of the script. *)
Definition actions (w : widgets) : M unit :=
  (if approve_button w then approve else mret tt) ;;
  (if reject_button w
   then (if submit_button w then reject (reject_feedback w) else mret tt)
   else mret tt) ;;
  (if edit_button w then edit_keywords w else mret tt).

(** Lines 99-148: the results of the analysis and the actions on them. *)
Definition review (w : widgets) : M unit :=
  cm ← getattr "concept_matrix" concept_matrix ;
  visible ← (if is_set cm
             then sk ← getattr "seed_keywords" seed_keywords ; mret (is_set sk)
             else mret false) ;
  if visible : bool then
    cm ← getattr "concept_matrix" concept_matrix ;
    d ← dict_of cm_dict cm ;
    display_concept_matrix d ;;
    sk ← getattr "seed_keywords" seed_keywords ;
    d ← dict_of sk_dict sk ;
    display_seed_keywords d ;;
    emit (Markdown (of_string "---")) ;;
    emit (Subheader (128260%N :: of_string " Feedback & Actions")) ;;
    actions w
  else mret tt.

(** Lines 156-159: one entry of the result list. *)
Definition display_result (r : SearchResult) : M unit :=
  emit (Expander (of_string "Patent: " ++ url r)) ;;
  emit (WriteScore (of_string "User Scenario Score: ") (user_scenario r)) ;;
  emit (WriteScore (of_string "User Problem Score: ") (user_problem r)) ;;
  emit (Markdown (of_string "[View Patent](" ++ url r ++ of_string ")")).

(** Lines 151-159: the final results. *)
Definition display_final_results : M unit :=
  approved ← getattr "keywords_approved" keywords_approved ;
  ready ← (if approved : bool
           then cs ← getattr "current_state" current_state ;
                fu ← results_get r_final_url cs ;
                mret (nonempty fu)
           else mret false) ;
  if ready : bool then
    emit (Markdown (of_string "---")) ;;
    emit (Subheader (127919%N :: of_string " Search Results")) ;;
    cs ← getattr "current_state" current_state ;
    fu ← results_item "final_url" r_final_url cs ;
    for_each fu display_result
  else mret tt.

(** Lines 66-159: one run of the script. *)
Definition main (ext : extractor_fn) (w : widgets) : M unit :=
  init_session_state ;;
  emit (Title (128269%N :: of_string " Patent Search Assistant")) ;;
  emit (Markdown (of_string "---")) ;;
  emit (Expander (128221%N :: of_string " Enter Patent Idea")) ;;
  start_analysis ext w ;;
  review w ;;
  display_final_results.

(** The session and the trace a run ends with, whether it raised or not. *)
Definition run {A} (m : M A) (s : session) : result A * session * list event :=
  let '(r, w) := m (mkWorld s []) in (r, store w, trace w).

Definition outcome {A} (m : M A) (s : session) : result A := (run m s).1.1.
Definition after {A} (m : M A) (s : session) : session := (run m s).1.2.
Definition shown {A} (m : M A) (s : session) : list event := (run m s).2.

(** ** Notions of the specification *)

(** All characters of [s] are whitespace. *)
Definition blank (s : str) : Prop := Forall (λ c, is_space c = true) s.

(** [t] neither starts nor ends with whitespace. *)
Definition trimmed (t : str) : Prop :=
  (∀ c, head t = Some c → is_space c = false)
  ∧ (∀ c, last t = Some c → is_space c = false).

(** [t] is [s] without the whitespace around it. *)
Definition trim_of (s t : str) : Prop :=
  ∃ l r, s = l ++ t ++ r ∧ blank l ∧ blank r ∧ trimmed t.

(** [pieces] are the parts of [s] between its commas. *)
Definition comma_split (s : str) (pieces : list str) : Prop :=
  join [comma] pieces = s ∧ Forall (λ p, comma ∉ p) pieces.

(** The editor's rule in the words of the specification: split on
    commas, trim every token, drop the tokens that are empty after
    trimming, keep the others in their order. *)
Definition keywords_of (s : str) (kws : list str) : Prop :=
  ∃ pieces tokens,
    comma_split s pieces
    ∧ Forall2 trim_of pieces tokens
    ∧ kws = List.filter truthy tokens.

(** The session [init_session_state] leaves: what was assigned stays,
    what was absent gets its initial value. *)
Definition initialized (s : session) : session :=
  mkSession
    (Some (default tt (extractor s)))
    (Some (default None (current_state s)))
    (Some (default None (concept_matrix s)))
    (Some (default None (seed_keywords s)))
    (Some (default false (keywords_approved s)))
    (Some (default None (feedback s)))
    (Some (default None (edited_keywords s)))
    (editing s).

(** An attribute that is assigned in [s] has the same value in [s']. *)
Definition keeps {A} (f : session → option A) (s s' : session) : Prop :=
  ∀ v, f s = Some v → f s' = Some v.

(** An attribute holds a value other than Python's [None]. *)
Definition populated {A} (x : option (option A)) : bool :=
  match x with Some (Some _) => true | _ => false end.

(** The texts the extractor was called with, in a trace. *)
Definition calls (t : list event) : list (list N) :=
  omap (λ e, match e with ExtractKeywords x => Some x | _ => None end) t.

(** A computation leaves an observation [f] of the world as it was,
    whether it returns or raises. *)
Definition stable {A B} (f : world → B) (m : M A) : Prop :=
  ∀ w, f (m w).2 = f w.

(** A computation only displays: it returns, leaves the session as it
    was and adds to the trace no call of the extractor. *)
Definition displays (m : M unit) : Prop :=
  ∀ w, ∃ t, m w = (Ok tt, mkWorld (store w) (trace w ++ t)) ∧ calls t = [].

(** The events [init_session_state] adds to the trace. *)
Definition init_events (s : session) : list event :=
  match extractor s with Some _ => [] | None => [NewExtractor] end.

(** The header of the page. *)
Definition header : list event :=
  [Title (128269%N :: of_string " Patent Search Assistant");
   Markdown (of_string "---");
   Expander (128221%N :: of_string " Enter Patent Idea")].

(** A response that carries both records, as the contract of the
    extraction collaborator has it. *)
Definition complete (r : Results) : Prop :=
  is_set (r_concept_matrix r) = true ∧ is_set (r_seed_keywords r) = true.

(** An extractor all of whose responses are complete. *)
Definition answers_complete (ext : extractor_fn) : Prop :=
  ∀ text r, ext text = Ok (Some r) → complete r.

(** The concept matrix and the seed keywords are both there or both not. *)
Definition paired (s : session) : Prop :=
  populated (concept_matrix s) = populated (seed_keywords s).

(** A sequence of runs of the script on one session, each with the
    extractor's behaviour and the widget inputs of that run. *)
Definition runs (steps : list (extractor_fn * widgets)) (s : session) : session :=
  fold_left (λ s step, after (main step.1 step.2) s) steps s.

(** ** Notions for the further properties *)

(** A keyword as the editor stores it: not empty, no whitespace around
    it, no comma in it. *)
Definition clean (kw : str) : Prop := kw ≠ [] ∧ trimmed kw ∧ comma ∉ kw.

(** The first of [keys] that the dictionary [d] lacks. *)
Fixpoint first_missing {V} (keys : list string) (d : pydict V) : option string :=
  match keys with
  | [] => None
  | k :: keys' =>
      match dict_lookup k d with
      | Some _ => first_missing keys' d
      | None => Some k
      end
  end.

(** The three categories, in the order the script shows them. *)
Definition categories : list string :=
  ["problem_purpose"; "object_system"; "environment_field"].

(** What [display_seed_keywords] shows for one category. *)
Definition keyword_column (heading : string) (kws : list str) : list event :=
  Info (of_string heading) :: map (λ kw, Write (bullet kw)) kws.

(** What [display_final_results] shows for one result. *)
Definition result_entry (r : SearchResult) : list event :=
  [Expander (of_string "Patent: " ++ url r);
   WriteScore (of_string "User Scenario Score: ") (user_scenario r);
   WriteScore (of_string "User Problem Score: ") (user_problem r);
   Markdown (of_string "[View Patent](" ++ url r ++ of_string ")")].

(** How often a trace constructs an extractor. *)
Definition constructions (t : list event) : nat :=
  length (omap (λ e, match e with NewExtractor => Some tt | _ => None end) t).

(** The keywords are approved. *)
Definition approved (s : session) : bool :=
  match keywords_approved s with Some true => true | _ => false end.

(** The current state holds a non-empty list of final results. *)
Definition has_results (s : session) : bool :=
  match current_state s with
  | Some (Some r) => nonempty (r_final_url r)
  | _ => false
  end.

(** An extractor that raises or returns a result, never [None]. *)
Definition never_none (ext : extractor_fn) : Prop :=
  ∀ text, ext text ≠ Ok None.

(** A session in which [current_state] holds a result whenever the
    concept matrix is stored or the keywords are approved. *)
Definition grounded (s : session) : Prop :=
  (populated (concept_matrix s) = true ∨ keywords_approved s = Some true) →
  populated (current_state s) = true.

(** ** Sample inputs *)

Module Sample.

Definition matrix : ConceptMatrix :=
  mkConceptMatrix (of_string "removing contaminants") (of_string "filter")
    (of_string "residential water systems").

Definition keywords : SeedKeywords :=
  mkSeedKeywords [of_string "contaminant removal"]
    [of_string "filter"; of_string "membrane"]
    [of_string "home"; of_string "residential"].

Definition results : Results :=
  mkResults (Some matrix) (Some keywords)
    (Some [mkSearchResult (of_string "https://patents.example/US123")
             0.875%float 0.5%float]).

(** An extractor that answers every text with [results]. *)
Definition answers : extractor_fn := λ _, Ok (Some results).

(** An extractor that fails on every text. *)
Definition fails : extractor_fn := λ _, Raise (ExtractorError "timeout").

(** An extractor that returns [None]. *)
Definition returns_none : extractor_fn := λ _, Ok None.

(** No button reports a click. *)
Definition idle : widgets :=
  mkWidgets [] false false false [] false false ∅ false.

Definition click_start (text : str) : widgets :=
  mkWidgets text true false false [] false false ∅ false.

Definition click_approve : widgets :=
  mkWidgets [] false true false [] false false ∅ false.

Definition click_reject (text : str) : widgets :=
  mkWidgets [] false false true text true false ∅ false.

Definition click_save (typed : gmap string str) : widgets :=
  mkWidgets [] false false false [] false true typed true.

(** The session after a first successful analysis. *)
Definition analyzed : session :=
  after (main answers (click_start (of_string "A self-cleaning water filter"))) fresh.

End Sample.

(** * Properties *)

(** ** Splitting and trimming *)

Section text.

Implicit Types (s t p : str) (c : char).

Lemma split_not_nil sep s : split sep s ≠ [].
Proof. destruct s as [|c s]; simpl; [done|]. by repeat case_match. Qed.

Lemma join_cons (sep x : str) (l : list str) :
  l ≠ [] → join sep (x :: l) = x ++ sep ++ join sep l.
Proof. by destruct l. Qed.

Lemma join_split sep s : join [sep] (split sep s) = s.
Proof.
  induction s as [|c s IH]; [done|]. simpl.
  pose proof (split_not_nil sep s) as Hnil.
  destruct (N.eqb_spec c sep) as [->|Hne].
  - rewrite join_cons by done. simpl. by rewrite IH.
  - destruct (split sep s) as [|p ps] eqn:E; [done|].
    destruct ps as [|q ps].
    + simpl in *. by rewrite IH.
    + rewrite join_cons by done. rewrite join_cons in IH by done.
      rewrite <- IH. reflexivity.
Qed.

Lemma split_no_sep sep s : Forall (λ p, sep ∉ p) (split sep s).
Proof.
  induction s as [|c s IH]; simpl.
  - repeat constructor. by intros ?%elem_of_nil.
  - destruct (N.eqb_spec c sep) as [->|Hne].
    + constructor; [by intros ?%elem_of_nil | done].
    + destruct (split sep s) as [|p ps].
      * repeat constructor. by intros ->%list_elem_of_singleton.
      * inversion_clear IH as [|? ? Hp Hps]. constructor; [|done].
        intros [->|?]%elem_of_cons; done.
Qed.

Lemma lstrip_spec s :
  ∃ l, s = l ++ lstrip s ∧ blank l
       ∧ ∀ c, head (lstrip s) = Some c → is_space c = false.
Proof.
  induction s as [|c s (l & Hs & Hl & Hh)]; simpl.
  - exists []. split_and!; [done | constructor | by intros c [=]].
  - destruct (is_space c) eqn:Hc.
    + exists (c :: l). split_and!; [by rewrite Hs at 1 | by constructor | done].
    + exists []. split_and!; [done | constructor |]. simpl. congruence.
Qed.

Lemma rstrip_spec s :
  ∃ r, s = rstrip s ++ r ∧ blank r
       ∧ ∀ c, last (rstrip s) = Some c → is_space c = false.
Proof.
  destruct (lstrip_spec (reverse s)) as (l & Hs & Hl & Hh).
  exists (reverse l). unfold rstrip. split_and!.
  - rewrite <- reverse_app, <- Hs. by rewrite reverse_involutive.
  - unfold blank in *. rewrite Forall_forall in *. intros c Hc.
    apply Hl. by apply elem_of_reverse.
  - intros c. rewrite last_reverse. apply Hh.
Qed.

Lemma strip_spec s : trim_of s (strip s).
Proof.
  destruct (lstrip_spec s) as (l & Hs & Hl & Hh).
  destruct (rstrip_spec (lstrip s)) as (r & Hr & Hbr & Hlast).
  exists l, r. unfold strip. split_and!; try done.
  - by rewrite <- Hr.
  - split; [|done]. intros c Hc. apply Hh. rewrite Hr.
    apply head_Some in Hc as [t ->]. done.
Qed.

Lemma lstrip_id s :
  (∀ c, head s = Some c → is_space c = false) → lstrip s = s.
Proof. destruct s as [|c s]; [done|]. simpl. intros H. by rewrite H. Qed.

Lemma strip_trimmed t : trimmed t → strip t = t.
Proof.
  intros [Hh Hl]. unfold strip, rstrip. rewrite (lstrip_id t) by done.
  rewrite lstrip_id; [apply reverse_involutive|].
  intros c. rewrite head_reverse. apply Hl.
Qed.

Lemma strip_filter_commute (l : list str) :
  map strip (List.filter (λ k, truthy (strip k)) l)
  = List.filter truthy (map strip l).
Proof.
  induction l as [|k l IH]; [done|]. simpl.
  destruct (truthy (strip k)); simpl; by rewrite IH.
Qed.

Lemma parse_keywords_spec s : keywords_of s (parse_keywords s).
Proof.
  exists (split comma s), (map strip (split comma s)). split_and!.
  - split; [apply join_split | apply split_no_sep].
  - induction (split comma s); constructor; [apply strip_spec | done].
  - apply strip_filter_commute.
Qed.

Lemma parse_keywords_clean s kw :
  kw ∈ parse_keywords s → kw ≠ [] ∧ trimmed kw ∧ strip kw = kw.
Proof.
  unfold parse_keywords. rewrite strip_filter_commute.
  intros Hin. apply list_elem_of_In, filter_In in Hin as [Hin Hne].
  apply in_map_iff in Hin as (k & <- & _).
  destruct (strip_spec k) as (l & r & _ & _ & _ & Htrim).
  split_and!; [by destruct (strip k) | done | by apply strip_trimmed].
Qed.

Lemma parse_keywords_order s :
  parse_keywords s `sublist_of` map strip (split comma s).
Proof.
  unfold parse_keywords. rewrite strip_filter_commute.
  induction (map strip (split comma s)) as [|t ts IH]; simpl; [done|].
  destruct (truthy t); by constructor.
Qed.

End text.

(** ** Running computations *)

Section running.

Context {A B : Type}.
Implicit Types (m : M A) (k : A → M B) (w : world).

Lemma bind_unfold m k w :
  (m ≫= k) w = match m w with
               | (Ok a, w') => k a w'
               | (Raise e, w') => (Raise e, w')
               end.
Proof. reflexivity. Qed.

Lemma bind_ok m k w a w' : m w = (Ok a, w') → (m ≫= k) w = k a w'.
Proof. intros H. by rewrite bind_unfold, H. Qed.

Lemma bind_raise m k w e w' : m w = (Raise e, w') → (m ≫= k) w = (Raise e, w').
Proof. intros H. by rewrite bind_unfold, H. Qed.

Lemma stable_bind {C} (f : world → C) m k :
  stable f m → (∀ a, stable f (k a)) → stable f (m ≫= k).
Proof.
  intros Hm Hk w. rewrite bind_unfold. specialize (Hm w).
  destruct (m w) as [[a|e] w1]; simpl in *; [|done].
  by rewrite Hk.
Qed.

End running.

Section stability.

Context {C : Type} (f : world → C).

Lemma stable_ret {A} (a : A) : stable f (mret a).
Proof. by intros w. Qed.

Lemma stable_raise {A} e : stable f (raise (A:=A) e).
Proof. by intros w. Qed.

Lemma stable_getattr {A} name (g : session → option A) : stable f (getattr name g).
Proof. intros w. unfold getattr. by destruct (g (store w)). Qed.

Lemma stable_getitem {V} key (d : pydict V) : stable f (getitem key d).
Proof. unfold getitem. destruct (dict_lookup key d); by intros w. Qed.

Lemma stable_dict_of {R V} (g : R → pydict V) x : stable f (dict_of g x).
Proof. destruct x; by intros w. Qed.

Lemma stable_results_get {V} (g : Results → option V) x : stable f (results_get g x).
Proof. destruct x; by intros w. Qed.

Lemma stable_results_item {V} key (g : Results → option V) x :
  stable f (results_item key g x).
Proof.
  unfold results_item. destruct x as [r|]; [destruct (g r)|]; by intros w.
Qed.

Lemma stable_setattr upd :
  (∀ w, f (mkWorld (upd (store w)) (trace w)) = f w) → stable f (setattr upd).
Proof. intros H w. apply H. Qed.

Lemma stable_emit e :
  (∀ w, f (mkWorld (store w) (trace w ++ [e])) = f w) → stable f (emit e).
Proof. intros H w. apply H. Qed.

Lemma stable_if_absent {A} (g : session → option A) body :
  stable f body → stable f (if_absent g body).
Proof.
  intros H w. unfold if_absent.
  destruct (g (store w)); [reflexivity | apply (H w)].
Qed.

Lemma stable_for_each {A} (l : list A) body :
  (∀ x, stable f (body x)) → stable f (for_each l body).
Proof.
  intros H. induction l as [|x l IH]; simpl; [by intros w|].
  apply stable_bind; [apply H | done].
Qed.

Lemma stable_if {A} (b : bool) (m1 m2 : M A) :
  stable f m1 → stable f m2 → stable f (if b then m1 else m2).
Proof. by destruct b. Qed.

Lemma stable_extract ext text :
  (∀ w, f (mkWorld (store w) (trace w ++ [ExtractKeywords text])) = f w) →
  stable f (extract_keywords ext text).
Proof. intros H w. unfold extract_keywords. destruct (ext text); apply H. Qed.

End stability.

Create HintDb stable discriminated.

#[export] Hint Resolve stable_ret stable_raise stable_getattr stable_getitem
  stable_dict_of stable_results_get stable_results_item stable_if_absent
  stable_for_each stable_if : stable.

Lemma calls_snoc t e :
  calls (t ++ [e]) = calls t ++ match e with ExtractKeywords x => [x] | _ => [] end.
Proof. unfold calls. rewrite omap_app. by destruct e. Qed.

(** Breaks a script block into its calls and closes each with the rule
    for that call; an assignment or a display call is checked by
    computation. *)
Ltac stable_step :=
  lazymatch goal with
  | |- stable _ (_ ≫= _) => apply stable_bind; [|intros ?]
  | |- stable _ (setattr _) =>
      apply stable_setattr; intros [? ?]; reflexivity
  | |- stable _ (emit _) =>
      apply stable_emit; intros [? ?]; cbn [store trace];
      rewrite ?calls_snoc, ?app_nil_r; reflexivity
  | |- stable _ (if _ then _ else _) => apply stable_if
  | |- stable _ (for_each _ _) => apply stable_for_each; intros ?
  | |- stable _ (if_absent _ _) => apply stable_if_absent
  | |- stable _ _ => solve [eauto with stable]
  end.

Ltac stable_auto := repeat stable_step.

(** ** The blocks of the script, one by one *)

Ltac unfold_blocks :=
  unfold main, review, actions, approve, reject, edit_keywords, save_edited,
    display_final_results, display_result, start_analysis,
    display_concept_matrix, display_seed_keywords, init_session_state.

Ltac stable_block := unfold_blocks; cbv zeta; stable_auto.

(** The extractor is called by the Start Analysis block only. *)
Lemma review_calls w : stable (λ W, calls (trace W)) (review w).
Proof. stable_block. Qed.

Lemma display_final_results_calls :
  stable (λ W, calls (trace W)) display_final_results.
Proof. stable_block. Qed.

Lemma init_session_state_calls :
  stable (λ W, calls (trace W)) init_session_state.
Proof. stable_block. Qed.

(** The final results are display only. *)
Lemma display_final_results_store : stable store display_final_results.
Proof. stable_block. Qed.

(** The review block assigns [keywords_approved], [feedback] and
    [editing], and nothing else. *)
Lemma review_extractor w : stable (λ W, extractor (store W)) (review w).
Proof. stable_block. Qed.

Lemma review_current_state w : stable (λ W, current_state (store W)) (review w).
Proof. stable_block. Qed.

Lemma review_concept_matrix w : stable (λ W, concept_matrix (store W)) (review w).
Proof. stable_block. Qed.

Lemma review_seed_keywords w : stable (λ W, seed_keywords (store W)) (review w).
Proof. stable_block. Qed.

Lemma review_edited_keywords w :
  stable (λ W, edited_keywords (store W)) (review w).
Proof. stable_block. Qed.

(** The Start Analysis block leaves the approval and the feedback alone. *)
Lemma start_analysis_keywords_approved ext w :
  stable (λ W, keywords_approved (store W)) (start_analysis ext w).
Proof. stable_block. apply stable_extract. by intros [? ?]. Qed.

Lemma start_analysis_feedback ext w :
  stable (λ W, feedback (store W)) (start_analysis ext w).
Proof. stable_block. apply stable_extract. by intros [? ?]. Qed.

Lemma displays_ret : displays (mret tt).
Proof. intros w. exists []. by rewrite app_nil_r; destruct w. Qed.

Lemma displays_emit e :
  (∀ x, e ≠ ExtractKeywords x) → displays (emit e).
Proof.
  intros He w. exists [e]. split; [done|].
  destruct e; try done. by destruct (He input).
Qed.

Lemma displays_seq (m1 m2 : M unit) :
  displays m1 → displays m2 → displays (m1 ;; m2).
Proof.
  intros H1 H2 w. destruct (H1 w) as (t1 & E1 & C1).
  destruct (H2 (mkWorld (store w) (trace w ++ t1))) as (t2 & E2 & C2).
  exists (t1 ++ t2). rewrite (bind_ok _ _ _ _ _ E1), E2. simpl.
  split; [by rewrite app_assoc|]. unfold calls in *. by rewrite omap_app, C1, C2.
Qed.

Lemma displays_for_each {A} (l : list A) (body : A → M unit) :
  (∀ x, displays (body x)) → displays (for_each l body).
Proof.
  intros H. induction l; simpl; [apply displays_ret | by apply displays_seq].
Qed.

Lemma displays_getitem {V} key (d : pydict V) v (k : V → M unit) :
  dict_lookup key d = Some v → displays (k v) → displays (getitem key d ≫= k).
Proof.
  intros Hd Hk w. unfold getitem. rewrite Hd.
  destruct (Hk w) as (t & E & C). by exists t.
Qed.

Ltac displays_step :=
  lazymatch goal with
  | |- displays (mret tt) => apply displays_ret
  | |- displays (emit _) => apply displays_emit; by intros ?
  | |- displays (for_each _ _) => apply displays_for_each; intros ?
  | |- displays (getitem _ _ ≫= _) => eapply displays_getitem; [reflexivity|]
  | |- displays (_ ≫= _) => apply displays_seq
  end.

Lemma display_concept_matrix_ok c : displays (display_concept_matrix (cm_dict c)).
Proof. unfold display_concept_matrix. repeat displays_step. Qed.

Lemma display_seed_keywords_ok k : displays (display_seed_keywords (sk_dict k)).
Proof. unfold display_seed_keywords. repeat displays_step. Qed.

Lemma init_session_state_run w :
  init_session_state w
  = (Ok tt, mkWorld (initialized (store w)) (trace w ++ init_events (store w))).
Proof.
  destruct w as [[[[]|] [?|] [?|] [?|] [?|] [?|] [?|] ?] t];
    cbn; by rewrite ?app_nil_r.
Qed.

Lemma initialized_idemp s : initialized (initialized s) = initialized s.
Proof. by destruct s. Qed.

(** One run: the session is initialised, the header is shown, then the
    three blocks run in turn. *)
Lemma main_unfold ext w s t :
  main ext w (mkWorld s t)
  = (start_analysis ext w ;; review w ;; display_final_results)
      (mkWorld (initialized s) (t ++ init_events s ++ header)).
Proof.
  unfold main. erewrite bind_ok by apply init_session_state_run.
  do 3 (erewrite bind_ok by reflexivity).
  cbn [store trace]. unfold header. by rewrite <- !app_assoc.
Qed.

Lemma outcome_eq {A} (m : M A) s : outcome m s = (m (mkWorld s [])).1.
Proof. unfold outcome, run. by destruct (m _). Qed.

Lemma after_eq {A} (m : M A) s : after m s = store (m (mkWorld s [])).2.
Proof. unfold after, run. by destruct (m _). Qed.

Lemma shown_eq {A} (m : M A) s : shown m s = trace (m (mkWorld s [])).2.
Proof. unfold shown, run. by destruct (m _). Qed.

(** What follows the Start Analysis block never calls the extractor. *)
Lemma rest_calls w :
  stable (λ W, calls (trace W)) (review w ;; display_final_results).
Proof.
  apply stable_bind; [apply review_calls | intros _; apply display_final_results_calls].
Qed.

Lemma calls_header s : calls ([] ++ init_events s ++ header) = [].
Proof. unfold init_events. by destruct (extractor s). Qed.

(** ** Session initialisation *)

(** C10: [init_session_state] assigns an attribute only when it is
    absent. It always returns; every attribute that was assigned keeps its
    value; running it on the session it leaves (as every later run of the
    script does) changes nothing and constructs no second extractor. *)
Theorem init_session_state_preserves (s : session) :
  let s' := after init_session_state s in
  outcome init_session_state s = Ok tt
  ∧ s' = initialized s
  ∧ (keeps extractor s s' ∧ keeps current_state s s'
     ∧ keeps concept_matrix s s' ∧ keeps seed_keywords s s'
     ∧ keeps keywords_approved s s' ∧ keeps feedback s s'
     ∧ keeps edited_keywords s s' ∧ editing s' = editing s)
  ∧ run init_session_state s' = (Ok tt, s', []).
Proof.
  cbv zeta. rewrite outcome_eq, after_eq. unfold run.
  rewrite !init_session_state_run. cbn [fst snd store trace].
  split_and!; try done; intros v Hv; cbn; by rewrite Hv.
Qed.

(** ** Start Analysis *)

Lemma start_analysis_skip ext w W :
  start_button w && truthy (input_text w) = false →
  start_analysis ext w W = (Ok tt, W).
Proof. intros H. unfold start_analysis. by rewrite H. Qed.




Lemma start_analysis_run ext w W :
  start_button w = true → input_text w ≠ [] → is_Some (extractor (store W)) →
  start_analysis ext w W
  = let called := trace W ++ [ExtractKeywords (input_text w)] in
    match ext (input_text w) with
    | Raise e => (Raise e, mkWorld (store W) called)
    | Ok None =>
        (Raise (AttributeError "get"),
         mkWorld (set_current_state None (store W)) called)
    | Ok (Some r) =>
        (Ok tt,
         mkWorld (set_seed_keywords (r_seed_keywords r)
                    (set_concept_matrix (r_concept_matrix r)
                       (set_current_state (Some r) (store W))))
           (called ++ [Success (9989%N :: of_string " Initial analysis complete!")]))
    end.
Proof.
  intros Hb Hin [h Hh]. unfold start_analysis. rewrite Hb.
  destruct (input_text w) as [|c text] eqn:Ht; [done|]. cbn [truthy andb].
  rewrite bind_unfold. unfold getattr at 1. rewrite Hh.
  rewrite bind_unfold. unfold extract_keywords.
  by destruct (ext (c :: text)) as [[r|]|e].
Qed.

Lemma stable_store_proj {A C} (g : session → C) (m : M A) :
  stable store m → stable (λ W, g (store W)) m.
Proof. intros H W. by rewrite H. Qed.

Lemma rest_stable {C} (f : world → C) w :
  stable f (review w) → stable f display_final_results →
  stable f (review w ;; display_final_results).
Proof. intros H1 H2. apply stable_bind; [done | by intros _]. Qed.

Lemma rest_concept_matrix w :
  stable (λ W, concept_matrix (store W)) (review w ;; display_final_results).
Proof.
  apply rest_stable; [apply review_concept_matrix|].
  apply stable_store_proj, display_final_results_store.
Qed.

Lemma rest_seed_keywords w :
  stable (λ W, seed_keywords (store W)) (review w ;; display_final_results).
Proof.
  apply rest_stable; [apply review_seed_keywords|].
  apply stable_store_proj, display_final_results_store.
Qed.

Lemma rest_current_state w :
  stable (λ W, current_state (store W)) (review w ;; display_final_results).
Proof.
  apply rest_stable; [apply review_current_state|].
  apply stable_store_proj, display_final_results_store.
Qed.

Lemma initialized_has_extractor s t :
  is_Some (extractor (store (mkWorld (initialized s) t))).
Proof. by eexists. Qed.

(** C3, as the script has it: when the extractor raises, nothing handles
    the exception. It leaves the Start Analysis block and ends the run,
    with the session as it was: nothing of the result is stored, and
    nothing is shown after the call, neither a success message nor a
    message about the error. *)
Theorem extractor_failure_aborts ext w e :
  start_button w = true → input_text w ≠ [] → ext (input_text w) = Raise e →
  (∀ W, is_Some (extractor (store W)) →
     start_analysis ext w W
     = (Raise e, mkWorld (store W) (trace W ++ [ExtractKeywords (input_text w)])))
  ∧ ∀ s, let s' := after (main ext w) s in
      outcome (main ext w) s = Raise e
      ∧ s' = initialized s
      ∧ keeps current_state s s' ∧ keeps concept_matrix s s'
      ∧ keeps seed_keywords s s'
      ∧ after (main ext w) s' = s'
      ∧ shown (main ext w) s
        = init_events s ++ header ++ [ExtractKeywords (input_text w)].
Proof.
  intros Hb Hin He.
  assert (Hblock : ∀ W, is_Some (extractor (store W)) →
     start_analysis ext w W
     = (Raise e, mkWorld (store W) (trace W ++ [ExtractKeywords (input_text w)]))).
  { intros W HW. rewrite start_analysis_run by done. cbv zeta. by rewrite He. }
  split; [done|].
  assert (Hrun : ∀ s, main ext w (mkWorld s [])
    = (Raise e, mkWorld (initialized s)
                  (init_events s ++ header ++ [ExtractKeywords (input_text w)]))).
  { intros s. rewrite main_unfold.
    erewrite bind_raise by apply Hblock, initialized_has_extractor.
    cbn [store trace]. by rewrite <- !app_assoc. }
  intros s. cbv zeta. rewrite outcome_eq, !after_eq, shown_eq, !Hrun.
  cbn [fst snd store trace].
  split_and!; try done; intros v Hv; cbn; by rewrite Hv.
Qed.

Lemma extractor_failure_aborts_witness :
  outcome (main Sample.fails (Sample.click_start (of_string "idea"))) Sample.analyzed
  = Raise (ExtractorError "timeout")
  ∧ after (main Sample.fails (Sample.click_start (of_string "idea"))) Sample.analyzed
    = Sample.analyzed.
Proof.
  destruct (extractor_failure_aborts Sample.fails
              (Sample.click_start (of_string "idea")) (ExtractorError "timeout"))
    as [_ H]; [reflexivity | done | reflexivity |].
  destruct (H Sample.analyzed) as (Ho & Hs & _).
  split; [exact Ho | rewrite Hs; vm_compute; reflexivity].
Defined.

(** ** The concept matrix and the seed keywords go together *)

Lemma paired_initialized s : paired (initialized s) ↔ paired s.
Proof. unfold paired. by destruct s as [? ? [?|] [?|] ? ? ? ?]. Qed.

Lemma rest_paired w W :
  paired (store ((review w ;; display_final_results) W).2) ↔ paired (store W).
Proof.
  unfold paired. by rewrite (rest_concept_matrix w W), (rest_seed_keywords w W).
Qed.

(** One run keeps the pairing, when the extractor's responses are complete. *)
Lemma main_paired ext w s :
  answers_complete ext → paired s → paired (after (main ext w) s).
Proof.
  intros Hext Hs. rewrite after_eq, main_unfold.
  apply paired_initialized in Hs.
  destruct (start_button w && truthy (input_text w)) eqn:Hgo.
  - apply andb_true_iff in Hgo as [Hb Hin].
    assert (input_text w ≠ []) as Hne by (by destruct (input_text w)).
    rewrite bind_unfold, start_analysis_run
      by (done || apply initialized_has_extractor).
    cbv zeta. destruct (ext (input_text w)) as [[r|]|e] eqn:He; cbn [store].
    + apply rest_paired. cbn [store]. destruct (Hext _ _ He) as [Hc Hk].
      unfold paired. cbn.
      by destruct (r_concept_matrix r), (r_seed_keywords r).
    + done.
    + done.
  - erewrite bind_ok by by apply start_analysis_skip.
    by apply rest_paired.
Qed.

Lemma runs_paired steps s :
  Forall (λ step, answers_complete step.1) steps → paired s →
  paired (runs steps s).
Proof.
  intros Hsteps. revert s.
  induction Hsteps as [|[ext w] steps Hext _ IH]; intros s Hs; [done|].
  apply IH. by apply main_paired.
Qed.

(** C1: a run in which Start Analysis is clicked on a non-empty text and
    the extractor answers with a complete response ends with the concept
    matrix and the seed keywords of that response both stored; and over
    any sequence of runs with such an extractor, from a new session or
    from any session where the two go together, they stay both there or
    both not. *)
Theorem analysis_sets_both ext w r s steps :
  start_button w = true → input_text w ≠ [] →
  ext (input_text w) = Ok (Some r) → complete r →
  Forall (λ step, answers_complete step.1) steps →
  let s' := after (main ext w) s in
  (populated (concept_matrix s') = true ∧ populated (seed_keywords s') = true
   ∧ concept_matrix s' = Some (r_concept_matrix r)
   ∧ seed_keywords s' = Some (r_seed_keywords r))
  ∧ (paired s → paired (runs steps s))
  ∧ paired (runs steps fresh).
Proof.
  intros Hb Hin He [Hc Hk] Hsteps. cbv zeta. split_and!.
  1-4: rewrite after_eq, main_unfold, bind_unfold, start_analysis_run
         by (done || apply initialized_has_extractor);
       cbv zeta; rewrite He;
       rewrite ?(rest_concept_matrix w _), ?(rest_seed_keywords w _);
       cbn [store]; cbn;
       by destruct (r_concept_matrix r), (r_seed_keywords r).
  - by apply runs_paired.
  - by apply runs_paired.
Qed.

Lemma analysis_sets_both_witness :
  concept_matrix Sample.analyzed = Some (Some Sample.matrix)
  ∧ seed_keywords Sample.analyzed = Some (Some Sample.keywords)
  ∧ paired (runs [(Sample.answers, Sample.click_start (of_string "idea"));
                  (Sample.fails, Sample.click_start (of_string "other"));
                  (Sample.answers, Sample.click_approve)] fresh).
Proof.
  destruct (analysis_sets_both Sample.answers
              (Sample.click_start (of_string "A self-cleaning water filter"))
              Sample.results fresh
              [(Sample.answers, Sample.click_start (of_string "idea"));
               (Sample.fails, Sample.click_start (of_string "other"));
               (Sample.answers, Sample.click_approve)])
    as ((_ & _ & Hm & Hk) & _ & Hruns).
  - reflexivity.
  - done.
  - reflexivity.
  - split; reflexivity.
  - repeat (apply List.Forall_cons;
              [intros text r [=]; subst; split; reflexivity|]).
    apply List.Forall_nil.
  - split_and!; [exact Hm | exact Hk | exact Hruns].
Defined.

(** A response with one of the two records missing is stored as it is:
    completeness of the response is what the pairing rests on. *)
Example incomplete_response_unpairs :
  let half : extractor_fn :=
    λ _, Ok (Some (mkResults (Some Sample.matrix) None None)) in
  let s' := after (main half (Sample.click_start (of_string "idea"))) fresh in
  populated (concept_matrix s') = true ∧ populated (seed_keywords s') = false.
Proof. vm_compute. done. Qed.

(** ** Review: the panel and its actions *)

Lemma getattr_ok {A} name (f : session → option A) W v :
  f (store W) = Some v → getattr name f W = (Ok v, W).
Proof. intros H. unfold getattr. by rewrite H. Qed.

(** With both records stored, the review block shows them and goes on to
    the action buttons on the same session. *)
Lemma review_visible w W c k :
  concept_matrix (store W) = Some (Some c) →
  seed_keywords (store W) = Some (Some k) →
  ∃ t, calls t = []
       ∧ review w W = actions w (mkWorld (store W) (trace W ++ t)).
Proof.
  intros Hc Hk. unfold review.
  destruct (display_concept_matrix_ok c W) as (t1 & E1 & C1).
  destruct (display_seed_keywords_ok k (mkWorld (store W) (trace W ++ t1)))
    as (t2 & E2 & C2).
  exists (t1 ++ t2 ++ [Markdown (of_string "---");
                       Subheader (128260%N :: of_string " Feedback & Actions")]).
  split; [unfold calls in *; by rewrite !omap_app, C1, C2|].
  erewrite bind_ok by (apply getattr_ok; eassumption).
  cbn [is_set].
  erewrite bind_ok
    by (erewrite bind_ok by (apply getattr_ok; eassumption); reflexivity).
  cbn [is_set].
  erewrite bind_ok by (apply getattr_ok; eassumption).
  erewrite bind_ok by reflexivity.
  erewrite bind_ok by exact E1.
  erewrite bind_ok by (apply getattr_ok; eassumption).
  erewrite bind_ok by reflexivity.
  erewrite bind_ok by exact E2.
  do 2 (erewrite bind_ok by reflexivity).
  cbn [store trace]. by rewrite <- !app_assoc.
Qed.

(** Without one of them the review block does nothing. *)
Lemma review_hidden w W :
  is_Some (concept_matrix (store W)) → is_Some (seed_keywords (store W)) →
  populated (concept_matrix (store W)) && populated (seed_keywords (store W)) = false →
  review w W = (Ok tt, W).
Proof.
  intros [c Hc] [k Hk] Hp. unfold review.
  erewrite bind_ok by (apply getattr_ok; eassumption).
  rewrite Hc, Hk in Hp. destruct c as [c|]; cbn [is_set].
  - erewrite bind_ok
      by (erewrite bind_ok by (apply getattr_ok; eassumption); reflexivity).
    by destruct k.
  - by erewrite bind_ok by reflexivity.
Qed.

Lemma populated_Some {A} (x : option (option A)) :
  populated x = true → ∃ v, x = Some (Some v).
Proof. destruct x as [[v|]|]; [by exists v | done | done]. Qed.

(** A run in which Start Analysis is not clicked, on a session with both
    records: the session it ends with is the one the action buttons
    leave, and the extractor is not called. *)
Lemma main_actions ext w s :
  start_button w = false →
  populated (concept_matrix s) = true → populated (seed_keywords s) = true →
  ∃ t, after (main ext w) s = store (actions w (mkWorld (initialized s) t)).2
       ∧ calls (shown (main ext w) s) = [].
Proof.
  intros Hb [c Hc]%populated_Some [k Hk]%populated_Some.
  destruct (review_visible w
              (mkWorld (initialized s) ([] ++ init_events s ++ header)) c k)
    as (t & Ct & Et); [by cbn; rewrite Hc | by cbn; rewrite Hk |].
  cbn [store trace] in Et.
  exists (([] ++ init_events s ++ header) ++ t). split.
  - rewrite after_eq, main_unfold.
    erewrite bind_ok by by apply start_analysis_skip; rewrite Hb.
    rewrite bind_unfold, Et.
    destruct (actions w _) as [[[]|e] W']; [|reflexivity].
    by rewrite display_final_results_store.
  - rewrite shown_eq, main_unfold.
    erewrite bind_ok by by apply start_analysis_skip; rewrite Hb.
    rewrite (rest_calls w _). apply calls_header.
Qed.

(** ** Approve *)

Lemma approve_run W :
  approve W
  = (Ok tt,
     mkWorld (set_feedback (Some FApprove) (set_keywords_approved true (store W)))
       (trace W ++ [Success (of_string "Keywords approved! Processing will continue...")])).
Proof. reflexivity. Qed.

Lemma actions_approve w W :
  approve_button w = true → reject_button w = false → edit_button w = false →
  store (actions w W).2
  = set_feedback (Some FApprove) (set_keywords_approved true (store W)).
Proof. intros Ha Hr He. unfold actions. by rewrite Ha, Hr, He. Qed.

Lemma iter_idempotent {A} (f : A → A) (P : A → Prop) :
  (∀ x, P x → P (f x) ∧ f (f x) = f x) →
  ∀ n x, P x → 1 ≤ n → Nat.iter n f x = f x.
Proof.
  intros Hf n x Hx Hn. destruct n as [|n]; [lia|]. clear Hn.
  induction n as [|n IH]; [done|].
  change (f (Nat.iter (S n) f x) = f x). rewrite IH. by apply Hf.
Qed.

(** C7: a click on Approve sets [keywords_approved] to [True] and
    [feedback] to the approve action; any number of such clicks, one or
    more, leaves the session one click leaves. This holds for the
    handler on every session, and for whole runs of the script on every
    session that shows the keywords. *)
Theorem approve_idempotent ext w s n :
  approve_button w = true → start_button w = false →
  reject_button w = false → edit_button w = false →
  populated (concept_matrix s) = true → populated (seed_keywords s) = true →
  1 ≤ n →
  (∀ s0, let s1 := Nat.iter n (after approve) s0 in
         keywords_approved s1 = Some true ∧ feedback s1 = Some (Some FApprove)
         ∧ s1 = after approve s0)
  ∧ let s' := Nat.iter n (after (main ext w)) s in
    keywords_approved s' = Some true ∧ feedback s' = Some (Some FApprove)
    ∧ s' = after (main ext w) s.
Proof.
  intros Ha Hb Hr He Hc Hk Hn. split.
  - intros s0. cbv zeta.
    rewrite (iter_idempotent (after approve) (λ _, True)); by try done.
  - assert (Hone : ∀ x, populated (concept_matrix x) = true
                        ∧ populated (seed_keywords x) = true →
       after (main ext w) x
       = set_feedback (Some FApprove) (set_keywords_approved true (initialized x))).
    { intros x [Hcx Hkx]. destruct (main_actions ext w x) as (t & -> & _); try done.
      by rewrite actions_approve. }
    cbv zeta. rewrite (iter_idempotent (after (main ext w))
      (λ x, populated (concept_matrix x) = true
            ∧ populated (seed_keywords x) = true)); try done.
    + by rewrite Hone.
    + intros x Hx. rewrite Hone by done.
      assert (Hx' : populated (concept_matrix (set_feedback (Some FApprove)
                       (set_keywords_approved true (initialized x)))) = true
                    ∧ populated (seed_keywords (set_feedback (Some FApprove)
                       (set_keywords_approved true (initialized x)))) = true).
      { destruct Hx as [Hcx Hkx].
        by destruct x as [? ? [[?|]|] [[?|]|] ? ? ? ?]. }
      split; [done|]. by rewrite Hone.
Qed.

Lemma approve_idempotent_witness :
  let s' := Nat.iter 3 (after (main Sample.answers Sample.click_approve))
              Sample.analyzed in
  keywords_approved s' = Some true ∧ feedback s' = Some (Some FApprove)
  ∧ s' = after (main Sample.answers Sample.click_approve) Sample.analyzed.
Proof.
  apply (approve_idempotent Sample.answers Sample.click_approve Sample.analyzed 3);
    solve [reflexivity | lia].
Defined.

(** ** Approval comes from Approve only *)

Lemma review_keywords_approved w :
  approve_button w = false →
  stable (λ W, keywords_approved (store W)) (review w).
Proof. intros H. unfold_blocks. rewrite H. cbv zeta. stable_auto. Qed.

Lemma main_keywords_approved ext w s :
  approve_button w = false →
  keywords_approved (after (main ext w) s)
  = Some (default false (keywords_approved s)).
Proof.
  intros H. rewrite after_eq, main_unfold.
  pose proof (stable_bind (λ W, keywords_approved (store W))
    (start_analysis ext w) (λ _, review w ;; display_final_results)
    (start_analysis_keywords_approved ext w)) as Hst.
  rewrite Hst; [done|]. intros _. apply rest_stable.
  - by apply review_keywords_approved.
  - apply stable_store_proj, display_final_results_store.
Qed.

(** C8: a run in which Approve is not clicked leaves [keywords_approved]
    as it was ([False] when it was not assigned yet), whatever else is
    clicked, typed or answered by the extractor; so over any sequence of
    such runs a session that is not approved stays not approved. *)
Theorem approval_needs_approve steps s :
  Forall (λ step, approve_button step.2 = false) steps →
  keywords_approved s ≠ Some true →
  keywords_approved (runs steps s) ≠ Some true
  ∧ (steps ≠ [] →
     keywords_approved (runs steps s) = Some (default false (keywords_approved s))).
Proof.
  intros Hsteps. revert s.
  induction Hsteps as [|[ext w] steps Hw _ IH]; intros s Hs; [done|].
  simpl in Hw. pose proof (main_keywords_approved ext w s Hw) as Hone.
  assert (keywords_approved (after (main ext w) s) ≠ Some true) as Hs'.
  { rewrite Hone. by destruct (keywords_approved s) as [[]|]. }
  destruct (IH _ Hs') as [Hnot Hval]. split; [done|]. intros _.
  destruct steps as [|step steps]; [done|].
  change (runs ((ext, w) :: step :: steps) s)
    with (runs (step :: steps) (after (main ext w) s)).
  rewrite Hval by done. by rewrite Hone.
Qed.

Lemma approval_needs_approve_witness :
  keywords_approved
    (runs [(Sample.answers, Sample.click_start (of_string "idea"));
           (Sample.answers, Sample.click_reject (of_string "too broad"));
           (Sample.answers, Sample.click_save ∅)] fresh) ≠ Some true.
Proof.
  apply (approval_needs_approve
           [(Sample.answers, Sample.click_start (of_string "idea"));
            (Sample.answers, Sample.click_reject (of_string "too broad"));
            (Sample.answers, Sample.click_save ∅)] fresh).
  - repeat (apply List.Forall_cons; [reflexivity|]). apply List.Forall_nil.
  - done.
Defined.

(** ** Reject *)

Lemma actions_reject w W :
  approve_button w = false → reject_button w = true → submit_button w = true →
  edit_button w = false →
  store (actions w W).2
  = set_feedback (Some (FReject (reject_feedback w))) (store W).
Proof. intros Ha Hr Hs He. unfold actions. by rewrite Ha, Hr, Hs, He. Qed.

(** C9: submitting a rejection assigns [feedback] and nothing else. The
    handler does so on every session; a whole run in which only Reject
    and Submit Feedback are clicked ends with the initialised session
    with [feedback] replaced, so the approval, the concept matrix, the
    seed keywords and the current state are as before, and the extractor
    is not called. *)
Theorem reject_only_sets_feedback ext w s :
  reject_button w = true → submit_button w = true →
  start_button w = false → approve_button w = false → edit_button w = false →
  populated (concept_matrix s) = true → populated (seed_keywords s) = true →
  (∀ text W,
     reject text W
     = (Ok tt,
        mkWorld (set_feedback (Some (FReject text)) (store W))
          (trace W ++ [Info (of_string "Feedback submitted, regenerating keywords...")])))
  ∧ let s' := after (main ext w) s in
    s' = set_feedback (Some (FReject (reject_feedback w))) (initialized s)
    ∧ feedback s' = Some (Some (FReject (reject_feedback w)))
    ∧ keeps keywords_approved s s' ∧ keeps current_state s s'
    ∧ keeps concept_matrix s s' ∧ keeps seed_keywords s s'
    ∧ keeps extractor s s' ∧ keeps edited_keywords s s'
    ∧ editing s' = editing s
    ∧ calls (shown (main ext w) s) = [].
Proof.
  intros Hr Hs Hb Ha He Hc Hk. split; [done|]. cbv zeta.
  destruct (main_actions ext w s) as (t & -> & Hcalls); try done.
  rewrite actions_reject by done. cbn [store].
  split_and!; try done; intros v Hv; cbn; by rewrite Hv.
Qed.

Lemma reject_only_sets_feedback_witness :
  after (main Sample.answers (Sample.click_reject (of_string "too broad")))
    Sample.analyzed
  = set_feedback (Some (FReject (of_string "too broad"))) Sample.analyzed
  ∧ calls (shown (main Sample.answers (Sample.click_reject (of_string "too broad")))
             Sample.analyzed) = [].
Proof.
  destruct (reject_only_sets_feedback Sample.answers
              (Sample.click_reject (of_string "too broad")) Sample.analyzed)
    as (_ & Hs & _ & _ & _ & _ & _ & _ & _ & _ & Hcalls); try reflexivity.
  split; [rewrite Hs; vm_compute; reflexivity | exact Hcalls].
Defined.

(** ** The final results *)

(** Nothing is shown and nothing is raised when the keywords are not
    approved, or when the stored result has no result list or an empty one. *)
Lemma display_final_results_noop W :
  keywords_approved (store W) = Some false
  ∨ (keywords_approved (store W) = Some true
     ∧ ∃ r, current_state (store W) = Some (Some r)
            ∧ nonempty (r_final_url r) = false) →
  display_final_results W = (Ok tt, W).
Proof.
  unfold display_final_results. intros [Hf|(Ht & r & Hr & Hn)].
  - erewrite bind_ok by (apply getattr_ok; eassumption).
    by erewrite bind_ok by reflexivity.
  - erewrite bind_ok by (apply getattr_ok; eassumption).
    erewrite bind_ok.
    2:{ erewrite bind_ok by (apply getattr_ok; eassumption).
        erewrite bind_ok by reflexivity. reflexivity. }
    by rewrite Hn.
Qed.

(** With the keywords approved and [current_state] still [None], the
    condition of line 151 itself raises. *)
Lemma display_final_results_none W :
  keywords_approved (store W) = Some true →
  current_state (store W) = Some None →
  display_final_results W = (Raise (AttributeError "get"), W).
Proof.
  intros Ht Hn. unfold display_final_results.
  erewrite bind_ok by (apply getattr_ok; eassumption).
  erewrite bind_raise; [done|].
  erewrite bind_ok by (apply getattr_ok; eassumption).
  by erewrite bind_raise by reflexivity.
Qed.

(** C4, as stated, fails: on a session with the keywords approved and
    [current_state] equal to [None], showing the final results raises
    [AttributeError] instead of showing nothing. Such a session takes an
    extractor that returned [None] after an approval; in the next run,
    with nothing clicked, the error ends the run. *)
Theorem display_final_results_raises_without_state :
  let s := mkSession (Some tt) (Some None) (Some (Some Sample.matrix))
             (Some (Some Sample.keywords)) (Some true) (Some (Some FApprove))
             (Some None) None in
  run display_final_results s = (Raise (AttributeError "get"), s, [])
  ∧ runs [(Sample.answers, Sample.click_start (of_string "idea"));
          (Sample.answers, Sample.click_approve);
          (Sample.returns_none, Sample.click_start (of_string "idea"))] fresh = s
  ∧ outcome (main Sample.answers Sample.idle) s = Raise (AttributeError "get").
Proof. vm_compute. done. Qed.

(** ** Edit Keywords *)

Lemma edit_fields_sk_dict typed k :
  edit_fields typed (sk_dict k)
  = <["environment_field" :=
        parse_keywords (edit_input typed "environment_field" (sk_environment_field k))]>
      (<["object_system" :=
           parse_keywords (edit_input typed "object_system" (sk_object_system k))]>
         (<["problem_purpose" :=
              parse_keywords (edit_input typed "problem_purpose" (sk_problem_purpose k))]>
            ∅)).
Proof. reflexivity. Qed.

(** Every field of the seed keywords gets the keywords parsed from its
    own text area. *)
Lemma edit_fields_lookup typed k field keywords :
  (field, keywords) ∈ sk_dict k →
  edit_fields typed (sk_dict k) !! field
  = Some (parse_keywords (edit_input typed field keywords)).
Proof.
  rewrite edit_fields_sk_dict. unfold sk_dict.
  rewrite !elem_of_cons, elem_of_nil.
  intros [[= -> ->]|[[= -> ->]|[[= -> ->]|[]]]]; by simplify_map_eq.
Qed.

Lemma edit_fields_dom typed k :
  dom (edit_fields typed (sk_dict k))
  = ({["problem_purpose"; "object_system"; "environment_field"]} : gset string).
Proof. rewrite edit_fields_sk_dict, !dom_insert_L. set_solver. Qed.

(** C6: for every field of the seed keywords the editor stores the
    keywords of that field's text: the text is split at its commas, every
    piece is trimmed, the pieces that are empty after trimming are
    dropped and the others keep their order; every stored keyword is
    non-empty and has no whitespace around it. *)
Theorem edit_keywords_split_trim_drop typed k field keywords :
  (field, keywords) ∈ sk_dict k →
  let new_input := edit_input typed field keywords in
  let kws := parse_keywords new_input in
  edit_fields typed (sk_dict k) !! field = Some kws
  ∧ keywords_of new_input kws
  ∧ kws = List.filter truthy (map strip (split comma new_input))
  ∧ kws `sublist_of` map strip (split comma new_input)
  ∧ Forall (λ kw, kw ≠ [] ∧ trimmed kw ∧ strip kw = kw) kws
  ∧ parse_keywords (of_string "a, b ,, c")
    = [of_string "a"; of_string "b"; of_string "c"].
Proof.
  intros Hin. cbv zeta. split_and!.
  - by apply edit_fields_lookup.
  - apply parse_keywords_spec.
  - apply strip_filter_commute.
  - apply parse_keywords_order.
  - apply Forall_forall. intros kw. apply parse_keywords_clean.
  - reflexivity.
Qed.

Lemma edit_keywords_split_trim_drop_witness :
  edit_fields {["edit_problem_purpose" := of_string "a, b ,, c"]}
    (sk_dict Sample.keywords) !! "problem_purpose"
  = Some [of_string "a"; of_string "b"; of_string "c"].
Proof.
  destruct (edit_keywords_split_trim_drop
              {["edit_problem_purpose" := of_string "a, b ,, c"]}
              Sample.keywords "problem_purpose"
              (sk_problem_purpose Sample.keywords)) as [H _].
  - apply list_elem_of_here.
  - exact H.
Defined.

Lemma actions_save w W k :
  approve_button w = false → reject_button w = false →
  edit_button w = true → save_button w = true →
  seed_keywords (store W) = Some (Some k) →
  actions w W
  = (Ok tt,
     mkWorld (set_feedback (Some (FEdit (edit_fields (edit_text w) (sk_dict k))))
                (set_editing true (store W)))
       (trace W
        ++ [Info (of_string "Edit Keywords - Enter new keywords separated by commas");
            Success (of_string "Keywords updated!")])).
Proof.
  intros Ha Hr He Hs Hk. unfold actions, edit_keywords. rewrite Ha, Hr, He, Hs.
  do 4 (erewrite bind_ok by reflexivity).
  erewrite bind_ok by (apply getattr_ok; exact Hk).
  erewrite bind_ok by reflexivity.
  cbv zeta. unfold save_edited.
  do 1 (erewrite bind_ok by reflexivity).
  unfold emit. cbn [store trace]. by rewrite <- app_assoc.
Qed.

(** C2, as the script has it: Save Edited Keywords checks nothing. In a
    run in which Edit Keywords and Save are clicked, [feedback] becomes
    the edit action over exactly the three fields of the seed keywords;
    a field the user typed nothing for is filled from the current
    keywords of that field; the seed keywords themselves stay. *)
Theorem edit_keywords_saves_unchecked ext w s k :
  edit_button w = true → save_button w = true →
  start_button w = false → approve_button w = false → reject_button w = false →
  populated (concept_matrix s) = true → seed_keywords s = Some (Some k) →
  let edited := edit_fields (edit_text w) (sk_dict k) in
  let s' := after (main ext w) s in
  feedback s' = Some (Some (FEdit edited))
  ∧ dom edited
    = ({["problem_purpose"; "object_system"; "environment_field"]} : gset string)
  ∧ (∀ field keywords,
       (field, keywords) ∈ sk_dict k →
       edit_text w !! ("edit_" +:+ field) = None →
       edited !! field = Some (parse_keywords (join (of_string ", ") keywords)))
  ∧ seed_keywords s' = Some (Some k).
Proof.
  intros He Hs Hb Ha Hr Hc Hk. cbv zeta.
  destruct (main_actions ext w s) as (t & -> & _); [done | done | by rewrite Hk |].
  rewrite (actions_save w _ k) by (done || by cbn; rewrite Hk).
  cbn [snd store]. split_and!.
  - reflexivity.
  - apply edit_fields_dom.
  - intros field keywords Hin Hnone. rewrite (edit_fields_lookup _ _ _ _ Hin).
    unfold edit_input, text_area. by rewrite Hnone.
  - cbn. by rewrite Hk.
Qed.

Lemma edit_keywords_saves_unchecked_witness :
  feedback (after (main Sample.answers
                     (Sample.click_save {["edit_object_system" := of_string "pump, valve"]}))
              Sample.analyzed)
  = Some (Some (FEdit (edit_fields {["edit_object_system" := of_string "pump, valve"]}
                         (sk_dict Sample.keywords)))).
Proof.
  exact (proj1 (edit_keywords_saves_unchecked Sample.answers
                  (Sample.click_save {["edit_object_system" := of_string "pump, valve"]})
                  Sample.analyzed Sample.keywords
                  eq_refl eq_refl eq_refl eq_refl eq_refl eq_refl eq_refl)).
Defined.

(** C2, as stated, fails: with no text for [environment_field] the save
    goes through, the run ends normally and [feedback] is set, the
    missing category taken from the seed keywords. *)
Lemma edit_keywords_missing_category_saved :
  let typed : gmap string str :=
    <["edit_problem_purpose" := of_string "a, b ,, c"]>
      (<["edit_object_system" := of_string "pump"]> ∅) in
  let w := Sample.click_save typed in
  edit_text w !! "edit_environment_field" = None
  ∧ outcome (main Sample.answers w) Sample.analyzed = Ok tt
  ∧ feedback (after (main Sample.answers w) Sample.analyzed)
    = Some (Some (FEdit
        (<["problem_purpose" := [of_string "a"; of_string "b"; of_string "c"]]>
           (<["object_system" := [of_string "pump"]]>
              (<["environment_field" := [of_string "home"; of_string "residential"]]>
                 ∅))))).
Proof. vm_compute. done. Qed.

(** * Further properties of the script *)

(** ** The keyword editor's parsing, end to end *)

Section keywords.

Implicit Types (s t p kw : list N) (c : N).

Lemma split_app_sep sep p r :
  sep ∉ p → split sep (p ++ sep :: r) = p :: split sep r.
Proof.
  induction p as [|c p IH]; intros Hp; simpl.
  - by rewrite N.eqb_refl.
  - apply not_elem_of_cons in Hp as [Hc Hp].
    destruct (N.eqb_spec c sep) as [->|_]; [done|]. by rewrite IH.
Qed.

Lemma split_no_occurrence sep p : sep ∉ p → split sep p = [p].
Proof.
  induction p as [|c p IH]; intros Hp; simpl; [done|].
  apply not_elem_of_cons in Hp as [Hc Hp].
  destruct (N.eqb_spec c sep) as [->|_]; [done|]. by rewrite IH.
Qed.

Lemma split_join_comma_space kw (l : list (list N)) :
  comma ∉ kw → Forall (λ k, comma ∉ k) l →
  split comma (join (of_string ", ") (kw :: l)) = kw :: map (cons 32%N) l.
Proof.
  intros Hkw Hl. revert kw Hkw.
  induction Hl as [|k l Hk Hl IH]; intros kw Hkw.
  - by apply split_no_occurrence.
  - rewrite join_cons by done.
    change (of_string ", " ++ join (of_string ", ") (k :: l))
      with (comma :: 32%N :: join (of_string ", ") (k :: l)).
    rewrite split_app_sep by done.
    change (split comma (32%N :: join (of_string ", ") (k :: l)))
      with (match split comma (join (of_string ", ") (k :: l)) with
            | [] => [[32%N]]
            | q :: qs => (32%N :: q) :: qs
            end).
    by rewrite IH.
Qed.

Lemma strip_leading_space s : strip (32%N :: s) = strip s.
Proof. reflexivity. Qed.

Lemma strip_clean kw : clean kw → strip kw = kw ∧ truthy (strip kw) = true.
Proof.
  intros (Hne & Htrim & _). rewrite strip_trimmed by done.
  split; [done | by destruct kw].
Qed.

Lemma parse_pieces_clean (l : list (list N)) :
  Forall clean l →
  map strip (List.filter (λ k, truthy (strip k)) (map (cons 32%N) l)) = l.
Proof.
  induction 1 as [|kw l Hkw _ IH]; [done|]. cbn [map List.filter].
  rewrite strip_leading_space. destruct (strip_clean kw Hkw) as [Hs ->].
  cbn [map]. by rewrite strip_leading_space, Hs, IH.
Qed.

(** The keywords the editor pre-fills a text area with come back as they
    were when the text is left alone. *)
Lemma parse_join_clean (kws : list (list N)) :
  Forall clean kws → parse_keywords (join (of_string ", ") kws) = kws.
Proof.
  intros Hkws. destruct Hkws as [|kw l Hkw Hl]; [done|].
  unfold parse_keywords. rewrite split_join_comma_space.
  - cbn [List.filter]. destruct (strip_clean kw Hkw) as [Hs ->].
    cbn [map]. by rewrite Hs, parse_pieces_clean.
  - apply Hkw.
  - eapply Forall_impl; [exact Hl|]. by intros k (_ & _ & ?).
Qed.

Lemma strip_elem_of p c : c ∈ strip p → c ∈ p.
Proof.
  destruct (strip_spec p) as (l & r & Hp & _). intros Hc.
  rewrite Hp, !elem_of_app. auto.
Qed.

Lemma parse_keywords_all_clean s : Forall clean (parse_keywords s).
Proof.
  apply Forall_forall. intros kw Hkw.
  destruct (parse_keywords_clean s kw Hkw) as (Hne & Htrim & _).
  split_and!; [done | done |].
  unfold parse_keywords in Hkw. rewrite strip_filter_commute in Hkw.
  apply list_elem_of_In, filter_In in Hkw as [Hkw _].
  apply in_map_iff in Hkw as (p & <- & Hp%list_elem_of_In).
  pose proof (split_no_sep comma s) as Hall.
  rewrite Forall_forall in Hall. intros Hc%strip_elem_of. by apply (Hall p).
Qed.

Lemma split_elem_of sep s p c : p ∈ split sep s → c ∈ p → c ∈ s.
Proof.
  revert p. induction s as [|a s IH]; intros p; simpl.
  - by intros ->%list_elem_of_singleton.
  - destruct (N.eqb_spec a sep) as [->|_].
    + intros [->|Hp]%elem_of_cons Hc; [by apply elem_of_nil in Hc|].
      right. by eapply IH.
    + pose proof (split_not_nil sep s) as Hnil.
      destruct (split sep s) as [|q qs]; [done|].
      intros [->|Hp]%elem_of_cons Hc.
      * apply elem_of_cons in Hc as [->|Hc]; [left|right; eapply IH]; try done.
        by left.
      * right. eapply IH; [by right | done].
Qed.

Lemma join_elem_of sep (l : list (list N)) c :
  c ∈ join [sep] l → c = sep ∨ ∃ p, p ∈ l ∧ c ∈ p.
Proof.
  induction l as [|p l IH]; [by intros ?%elem_of_nil|].
  destruct l as [|q l].
  - intros Hc. right. exists p. split; [by left | done].
  - rewrite join_cons by done. rewrite !elem_of_app.
    intros [Hc|[Hc|Hc]].
    + right. exists p. split; [by left | done].
    + left. by apply list_elem_of_singleton in Hc.
    + destruct (IH Hc) as [->|(p' & Hp' & Hc')]; [by left|].
      right. exists p'. split; [by right | done].
Qed.

Lemma lstrip_blank p : blank p → lstrip p = [].
Proof. induction 1 as [|c p Hc _ IH]; [done|]. simpl. by rewrite Hc. Qed.

Lemma strip_blank p : blank p → strip p = [].
Proof. intros Hp. unfold strip. by rewrite lstrip_blank. Qed.

Lemma strip_empty_blank p : strip p = [] → blank p.
Proof.
  intros Hs. destruct (strip_spec p) as (l & r & Hp & Hl & Hr & _).
  rewrite Hs in Hp. rewrite Hp. by apply Forall_app.
Qed.

Lemma filter_nil_iff {A} (f : A → bool) (l : list A) :
  List.filter f l = [] ↔ ∀ x, x ∈ l → f x = false.
Proof.
  induction l as [|a l IH]; simpl.
  - split; [by intros _ x ?%elem_of_nil | done].
  - destruct (f a) eqn:Ha.
    + split; [done|]. intros H. specialize (H a (list_elem_of_here _ _)).
      congruence.
    + rewrite IH. split.
      * intros H x [->|Hx]%elem_of_cons; auto.
      * intros H x Hx. apply H. by right.
Qed.

End keywords.

(** X1: a text area the user leaves alone gives back the keywords it was
    pre-filled with, for every field whose keywords are clean: saving
    without typing stages the seed keywords of that field unchanged. *)
Theorem edit_untouched_round_trip typed k field keywords :
  (field, keywords) ∈ sk_dict k →
  typed !! ("edit_" +:+ field) = None →
  Forall clean keywords →
  edit_fields typed (sk_dict k) !! field = Some keywords.
Proof.
  intros Hin Hnone Hclean. rewrite (edit_fields_lookup _ _ _ _ Hin).
  unfold edit_input, text_area. rewrite Hnone. simpl.
  by rewrite parse_join_clean.
Qed.

Lemma edit_untouched_round_trip_witness :
  edit_fields ∅ (sk_dict Sample.keywords) !! "object_system"
  = Some [of_string "filter"; of_string "membrane"].
Proof.
  apply (edit_untouched_round_trip ∅ Sample.keywords "object_system"
           [of_string "filter"; of_string "membrane"]).
  - apply list_elem_of_further, list_elem_of_here.
  - reflexivity.
  - exact (parse_keywords_all_clean (of_string "filter, membrane")).
Defined.

(** X2: every list of keywords the editor produces is clean (no empty
    keyword, no whitespace around one, no comma inside one), and showing
    it again in a text area and parsing that text gives the same list. *)
Theorem parse_keywords_reparse (new_input : list N) :
  Forall clean (parse_keywords new_input)
  ∧ parse_keywords (join (of_string ", ") (parse_keywords new_input))
    = parse_keywords new_input.
Proof.
  split; [apply parse_keywords_all_clean|].
  apply parse_join_clean, parse_keywords_all_clean.
Qed.

(** X3: the editor stores no keyword at all for a field exactly when the
    text of that field consists of whitespace and commas only (the empty
    text included). *)
Theorem parse_keywords_empty_iff (new_input : list N) :
  parse_keywords new_input = []
  ↔ Forall (λ c, is_space c = true ∨ c = comma) new_input.
Proof.
  unfold parse_keywords. split.
  - intros Hnil. apply fmap_nil_inv in Hnil.
    rewrite filter_nil_iff in Hnil. apply Forall_forall. intros c Hc.
    rewrite <- (join_split comma new_input) in Hc.
    apply join_elem_of in Hc as [->|(p & Hp & Hc)]; [by right|]. left.
    specialize (Hnil p Hp).
    assert (strip p = []) as Hs by (by destruct (strip p)).
    apply strip_empty_blank in Hs. unfold blank in Hs.
    rewrite Forall_forall in Hs. by apply Hs.
  - intros Hall. rewrite Forall_forall in Hall.
    replace (List.filter _ _) with (@nil (list N)); [done|].
    symmetry. apply filter_nil_iff. intros p Hp.
    rewrite strip_blank; [done|]. apply Forall_forall. intros c Hc.
    destruct (Hall c (split_elem_of _ _ _ _ Hp Hc)) as [Hsp | ->]; [done|].
    pose proof (split_no_sep comma new_input) as Hno.
    rewrite Forall_forall in Hno. by destruct (Hno p Hp).
Qed.

Lemma parse_keywords_empty_iff_witness :
  parse_keywords (of_string " , ,,  ") = [].
Proof.
  apply (proj2 (parse_keywords_empty_iff (of_string " , ,,  "))).
  repeat (apply List.Forall_cons; [(by left) || (by right)|]).
  apply List.Forall_nil.
Defined.

(** A keyword with a comma inside is not clean: left alone in the text
    area it comes back as two keywords. *)
Example comma_keyword_splits :
  parse_keywords (join (of_string ", ") [of_string "oil,water separator"])
  = [of_string "oil"; of_string "water separator"].
Proof. reflexivity. Qed.

(** ** The display functions *)

Lemma for_each_emit {A} (g : A → event) (l : list A) W :
  for_each l (λ x, emit (g x)) W
  = (Ok tt, mkWorld (store W) (trace W ++ map g l)).
Proof.
  revert W. induction l as [|x l IH]; intros W; simpl.
  - rewrite app_nil_r. by destruct W.
  - erewrite bind_ok by reflexivity. rewrite IH. cbn [store trace].
    by rewrite <- app_assoc.
Qed.

Lemma display_concept_matrix_store d : stable store (display_concept_matrix d).
Proof. stable_block. Qed.

Lemma display_concept_matrix_calls d :
  stable (λ W, calls (trace W)) (display_concept_matrix d).
Proof. stable_block. Qed.

(** X4: [display_concept_matrix] needs the three categories in the
    dictionary it is given: it returns when all are there and otherwise
    raises [KeyError] for the first one missing, in display order; in
    either case it leaves the session alone and calls no extractor. *)
Theorem display_concept_matrix_first_missing (d : pydict (list N)) (W : world) :
  (display_concept_matrix d W).1
  = match first_missing categories d with
    | None => Ok tt
    | Some key => Raise (KeyError key)
    end
  ∧ store (display_concept_matrix d W).2 = store W
  ∧ calls (trace (display_concept_matrix d W).2) = calls (trace W).
Proof.
  split_and!.
  - unfold display_concept_matrix, getitem, categories, first_missing.
    destruct (dict_lookup "problem_purpose" d);
      destruct (dict_lookup "object_system" d);
      destruct (dict_lookup "environment_field" d); reflexivity.
  - apply display_concept_matrix_store.
  - apply (display_concept_matrix_calls d W).
Qed.

(** X5: given the three categories, [display_seed_keywords] shows one
    heading per category, in the fixed order, each followed by one
    bullet line per keyword in the order of the list (duplicates and an
    empty list included), and changes nothing in the session. *)
Theorem display_seed_keywords_columns (d : pydict (list (list N))) W pp os ef :
  dict_lookup "problem_purpose" d = Some pp →
  dict_lookup "object_system" d = Some os →
  dict_lookup "environment_field" d = Some ef →
  display_seed_keywords d W
  = (Ok tt,
     mkWorld (store W)
       (trace W
        ++ Subheader (128273%N :: of_string " Generated Keywords")
           :: keyword_column "Problem/Purpose Keywords" pp
           ++ keyword_column "Object/System Keywords" os
           ++ keyword_column "Environment/Field Keywords" ef)).
Proof.
  intros Hpp Hos Hef. unfold display_seed_keywords, getitem.
  rewrite Hpp, Hos, Hef.
  do 3 (erewrite bind_ok by reflexivity).
  erewrite bind_ok by apply for_each_emit.
  do 2 (erewrite bind_ok by reflexivity).
  erewrite bind_ok by apply for_each_emit.
  do 2 (erewrite bind_ok by reflexivity).
  rewrite for_each_emit. cbn [store trace]. unfold keyword_column.
  f_equal. f_equal. rewrite <- !app_assoc. reflexivity.
Qed.

Lemma display_seed_keywords_columns_witness :
  shown (display_seed_keywords (sk_dict Sample.keywords)) fresh
  = Subheader (128273%N :: of_string " Generated Keywords")
    :: keyword_column "Problem/Purpose Keywords" [of_string "contaminant removal"]
    ++ keyword_column "Object/System Keywords"
         [of_string "filter"; of_string "membrane"]
    ++ keyword_column "Environment/Field Keywords"
         [of_string "home"; of_string "residential"].
Proof.
  rewrite shown_eq.
  rewrite (display_seed_keywords_columns (sk_dict Sample.keywords) _
             [of_string "contaminant removal"]
             [of_string "filter"; of_string "membrane"]
             [of_string "home"; of_string "residential"]);
    reflexivity.
Defined.

Lemma for_each_display_result (l : list SearchResult) W :
  for_each l display_result W
  = (Ok tt, mkWorld (store W) (trace W ++ concat (map result_entry l))).
Proof.
  revert W. induction l as [|r l IH]; intros W; simpl.
  - rewrite app_nil_r. by destruct W.
  - erewrite bind_ok by reflexivity. rewrite IH. cbn [store trace].
    unfold result_entry. by rewrite <- !app_assoc.
Qed.

Lemma display_final_results_run W r entries :
  keywords_approved (store W) = Some true →
  current_state (store W) = Some (Some r) →
  r_final_url r = Some entries → entries ≠ [] →
  display_final_results W
  = (Ok tt,
     mkWorld (store W)
       (trace W
        ++ [Markdown (of_string "---");
            Subheader (127919%N :: of_string " Search Results")]
        ++ concat (map result_entry entries))).
Proof.
  intros Ha Hcs Hfu Hne. unfold display_final_results.
  erewrite bind_ok by (apply getattr_ok; eassumption).
  erewrite bind_ok.
  2:{ erewrite bind_ok by (apply getattr_ok; eassumption).
      erewrite bind_ok by reflexivity. reflexivity. }
  rewrite Hfu. destruct entries as [|x entries]; [done|]. cbn [nonempty].
  do 2 (erewrite bind_ok by reflexivity).
  erewrite bind_ok by (apply getattr_ok; eassumption).
  erewrite bind_ok by (unfold results_item; rewrite Hfu; reflexivity).
  rewrite for_each_display_result. cbn [store trace].
  by rewrite <- !app_assoc.
Qed.

(** X6: with the keywords approved and a non-empty result list in the
    current state, [display_final_results] shows the rule, the heading
    and then, for every result in the order of the list, its expander,
    its two scores and its link; it returns and leaves the session alone. *)
Theorem display_final_results_entries W r entries :
  keywords_approved (store W) = Some true →
  current_state (store W) = Some (Some r) →
  r_final_url r = Some entries → entries ≠ [] →
  display_final_results W
  = (Ok tt,
     mkWorld (store W)
       (trace W
        ++ [Markdown (of_string "---");
            Subheader (127919%N :: of_string " Search Results")]
        ++ concat (map result_entry entries))).
Proof. apply display_final_results_run. Qed.

Lemma display_final_results_entries_witness :
  let s := set_keywords_approved true Sample.analyzed in
  length (shown display_final_results s) = 6.
Proof.
  cbv zeta. rewrite shown_eq.
  rewrite (display_final_results_entries _ Sample.results
             (default [] (r_final_url Sample.results)));
    [reflexivity | reflexivity | reflexivity | reflexivity | done].
Defined.

(** ** Whole runs *)

Lemma calls_app t1 t2 : calls (t1 ++ t2) = calls t1 ++ calls t2.
Proof. unfold calls. apply omap_app. Qed.

(** X7: a run calls the extractor at most once: exactly once, with the
    text of the idea, when Start Analysis is clicked on a non-empty
    text, whatever the extractor then does, and not at all otherwise. *)
Theorem extractor_called_by_start_only ext w s :
  calls (shown (main ext w) s)
  = if start_button w && truthy (input_text w) then [input_text w] else [].
Proof.
  rewrite shown_eq, main_unfold.
  destruct (start_button w && truthy (input_text w)) eqn:Hgo.
  - apply andb_true_iff in Hgo as [Hb Hin].
    assert (input_text w ≠ []) as Hne by (by destruct (input_text w)).
    rewrite bind_unfold, start_analysis_run
      by (done || apply initialized_has_extractor).
    cbv zeta. destruct (ext (input_text w)) as [[r|]|e]; cbn [store trace snd].
    + rewrite (rest_calls w _). cbn [trace].
      rewrite !calls_app. unfold init_events. by destruct (extractor s).
    + rewrite !calls_app. unfold init_events. by destruct (extractor s).
    + rewrite !calls_app. unfold init_events. by destruct (extractor s).
  - erewrite bind_ok by by apply start_analysis_skip.
    rewrite (rest_calls w _). apply calls_header.
Qed.

(** X8: while the concept matrix or the seed keywords are missing, the
    action buttons are not there: a run without a new analysis ends with
    the initialised session, whatever the widgets report for Approve,
    Reject or Edit. *)
Theorem hidden_panel_ignores_clicks ext w s :
  start_button w && truthy (input_text w) = false →
  populated (concept_matrix s) && populated (seed_keywords s) = false →
  after (main ext w) s = initialized s.
Proof.
  intros Hgo Hp. rewrite after_eq, main_unfold.
  erewrite bind_ok by by apply start_analysis_skip.
  rewrite bind_unfold, review_hidden; [apply display_final_results_store | | |].
  - by eexists.
  - by eexists.
  - cbn. by destruct (concept_matrix s) as [[?|]|], (seed_keywords s) as [[?|]|].
Qed.

Lemma hidden_panel_ignores_clicks_witness :
  after (main Sample.answers Sample.click_approve) fresh = initialized fresh.
Proof.
  apply (hidden_panel_ignores_clicks Sample.answers Sample.click_approve fresh);
    reflexivity.
Defined.

Lemma review_idle w :
  approve_button w = false → reject_button w = false → edit_button w = false →
  stable store (review w).
Proof.
  intros Ha Hr He. unfold_blocks. rewrite Ha, Hr, He. cbv zeta. stable_auto.
Qed.

(** X9: a new analysis replaces [current_state], [concept_matrix] and
    [seed_keywords] and nothing else: an earlier approval and an earlier
    feedback stay in the session, now beside the new keywords. *)
Theorem reanalysis_keeps_approval ext w r s :
  start_button w = true → input_text w ≠ [] →
  ext (input_text w) = Ok (Some r) →
  approve_button w = false → reject_button w = false → edit_button w = false →
  after (main ext w) s
  = set_seed_keywords (r_seed_keywords r)
      (set_concept_matrix (r_concept_matrix r)
         (set_current_state (Some r) (initialized s))).
Proof.
  intros Hb Hin Hext Ha Hr He. rewrite after_eq, main_unfold.
  rewrite bind_unfold, start_analysis_run
    by (done || apply initialized_has_extractor).
  cbv zeta. rewrite Hext.
  pose proof (rest_stable store w (review_idle w Ha Hr He)
                display_final_results_store) as Hrest.
  by rewrite Hrest.
Qed.

Lemma reanalysis_keeps_approval_witness :
  let s := after (main Sample.answers Sample.click_approve) Sample.analyzed in
  let s' := after (main Sample.answers (Sample.click_start (of_string "second idea"))) s in
  keywords_approved s' = Some true ∧ feedback s' = Some (Some FApprove).
Proof.
  cbv zeta.
  rewrite (reanalysis_keeps_approval Sample.answers
             (Sample.click_start (of_string "second idea")) Sample.results);
    try reflexivity; [|done].
  split; reflexivity.
Defined.

Lemma actions_edit_unsaved w W k :
  approve_button w = false → reject_button w = false →
  edit_button w = true → save_button w = false →
  seed_keywords (store W) = Some (Some k) →
  store (actions w W).2 = set_editing true (store W).
Proof.
  intros Ha Hr He Hs Hk. unfold actions, edit_keywords. rewrite Ha, Hr, He, Hs.
  do 4 (erewrite bind_ok by reflexivity).
  erewrite bind_ok by (apply getattr_ok; exact Hk).
  by erewrite bind_ok by reflexivity.
Qed.

(** X10: a click on Edit Keywords without Save stages nothing: the run
    sets the [editing] flag and leaves [feedback] and everything else
    as it was, whatever was typed into the text areas. *)
Theorem edit_without_save_stages_nothing ext w s :
  edit_button w = true → save_button w = false →
  start_button w = false → approve_button w = false → reject_button w = false →
  populated (concept_matrix s) = true → populated (seed_keywords s) = true →
  after (main ext w) s = set_editing true (initialized s).
Proof.
  intros He Hs Hb Ha Hr Hc Hk.
  destruct (main_actions ext w s) as (t & -> & _); try done.
  apply populated_Some in Hk as [k Hk].
  by rewrite (actions_edit_unsaved w _ k) by (done || by cbn; rewrite Hk).
Qed.

Lemma edit_without_save_stages_nothing_witness :
  let w := mkWidgets [] false false false [] false true
             {["edit_object_system" := of_string "pump"]} false in
  after (main Sample.answers w) Sample.analyzed
  = set_editing true Sample.analyzed.
Proof.
  cbv zeta.
  rewrite (edit_without_save_stages_nothing Sample.answers); reflexivity.
Defined.

Lemma start_analysis_edited_keywords ext w :
  stable (λ W, edited_keywords (store W)) (start_analysis ext w).
Proof. stable_block. apply stable_extract. by intros [? ?]. Qed.

Lemma start_analysis_extractor ext w :
  stable (λ W, extractor (store W)) (start_analysis ext w).
Proof. stable_block. apply stable_extract. by intros [? ?]. Qed.

Lemma main_stable {C} (f : world → C) ext w W :
  stable f (start_analysis ext w) → stable f (review w) →
  stable f display_final_results →
  f ((start_analysis ext w ;; review w ;; display_final_results) W).2 = f W.
Proof.
  intros H1 H2 H3.
  apply (stable_bind f (start_analysis ext w)
           (λ _, review w ;; display_final_results) H1).
  intros _. by apply rest_stable.
Qed.

(** X11: no run assigns [edited_keywords]: after every run, whatever is
    clicked, typed or answered, it holds what it held before, [None]
    when it was not assigned yet; edited keywords live in [feedback]
    only. *)
Theorem edited_keywords_never_assigned ext w s :
  edited_keywords (after (main ext w) s)
  = Some (default None (edited_keywords s)).
Proof.
  rewrite after_eq, main_unfold.
  rewrite (main_stable (λ W, edited_keywords (store W))); [done | | |].
  - apply start_analysis_edited_keywords.
  - apply review_edited_keywords.
  - apply stable_store_proj, display_final_results_store.
Qed.

(** X12: the results of the analysis change through Start Analysis
    only: a run without a new analysis leaves [current_state],
    [concept_matrix] and [seed_keywords] as they were, also when
    keywords are edited and saved. *)
Theorem analysis_data_changes_by_start_only ext w s :
  start_button w && truthy (input_text w) = false →
  let s' := after (main ext w) s in
  current_state s' = Some (default None (current_state s))
  ∧ concept_matrix s' = Some (default None (concept_matrix s))
  ∧ seed_keywords s' = Some (default None (seed_keywords s)).
Proof.
  intros Hgo. cbv zeta. rewrite after_eq, main_unfold.
  erewrite bind_ok by by apply start_analysis_skip.
  by rewrite (rest_current_state w _), (rest_concept_matrix w _),
    (rest_seed_keywords w _).
Qed.

Lemma analysis_data_changes_by_start_only_witness :
  seed_keywords
    (after (main Sample.answers
              (Sample.click_save {["edit_object_system" := of_string "pump"]}))
       Sample.analyzed)
  = Some (Some Sample.keywords).
Proof.
  destruct (analysis_data_changes_by_start_only Sample.answers
              (Sample.click_save {["edit_object_system" := of_string "pump"]})
              Sample.analyzed) as (_ & _ & H); [reflexivity|].
  exact H.
Defined.

(** ** Which errors a run can end with *)

Lemma actions_returns w W k b :
  seed_keywords (store W) = Some (Some k) →
  keywords_approved (store W) = Some b →
  ∃ W', actions w W = (Ok tt, W')
        ∧ current_state (store W') = current_state (store W)
        ∧ keywords_approved (store W') = Some (approve_button w || b).
Proof.
  intros Hk Hb. destruct W as [[e cs cm sk ka fb ek ed] t].
  simpl in Hk, Hb. subst sk ka. unfold actions, edit_keywords.
  destruct (approve_button w), (reject_button w), (submit_button w),
    (edit_button w), (save_button w); eexists; split_and!; reflexivity.
Qed.

Lemma display_final_results_returns W b :
  keywords_approved (store W) = Some b →
  (if b then populated (current_state (store W)) else true) = true →
  (display_final_results W).1 = Ok tt.
Proof.
  intros Hb Hcs. destruct b.
  - apply populated_Some in Hcs as [r Hr].
    destruct (nonempty (r_final_url r)) eqn:Hn.
    + destruct (r_final_url r) as [[|x entries]|] eqn:Hfu; try done.
      unfold display_final_results.
      erewrite bind_ok by (apply getattr_ok; eassumption).
      erewrite bind_ok.
      2:{ erewrite bind_ok by (apply getattr_ok; eassumption).
          erewrite bind_ok by reflexivity. reflexivity. }
      rewrite Hfu. cbn [nonempty].
      do 2 (erewrite bind_ok by reflexivity).
      erewrite bind_ok by (apply getattr_ok; eassumption).
      erewrite bind_ok by (unfold results_item; rewrite Hfu; reflexivity).
      by rewrite for_each_display_result.
    + rewrite display_final_results_noop; [done|]. right. eauto.
  - rewrite display_final_results_noop; [done | by left].
Qed.

(** On an initialised and grounded session the review block and the
    final results return. *)
Lemma rest_returns w W c k b cs :
  concept_matrix (store W) = Some c → seed_keywords (store W) = Some k →
  keywords_approved (store W) = Some b → current_state (store W) = Some cs →
  grounded (store W) →
  ((review w ;; display_final_results) W).1 = Ok tt.
Proof.
  intros Hc Hk Hb Hcs Hg. rewrite bind_unfold.
  destruct (populated (concept_matrix (store W))
            && populated (seed_keywords (store W))) eqn:Hp.
  - apply andb_true_iff in Hp as [Hpc Hpk].
    pose proof (Hg (or_introl Hpc)) as Hpcs.
    apply populated_Some in Hpc as [c' Hc'], Hpk as [k' Hk'].
    destruct (review_visible w W c' k' Hc' Hk') as (t & _ & ->).
    destruct (actions_returns w (mkWorld (store W) (trace W ++ t)) k' b)
      as (W' & -> & Hcs' & Hb'); [done | done |].
    apply (display_final_results_returns W' _ Hb').
    cbn [store] in Hcs'. rewrite Hcs'. by destruct (approve_button w || b).
  - rewrite review_hidden by (done || by eexists).
    apply (display_final_results_returns W b Hb).
    destruct b; [|done]. apply Hg. by right.
Qed.

Lemma grounded_initialized s : grounded (initialized s) ↔ grounded s.
Proof.
  unfold grounded.
  by destruct s as [? [[?|]|] [[?|]|] ? [[]|] ? ? ?]; cbn; intuition.
Qed.

(** One run keeps the session grounded, when the extractor never
    returns [None]. *)
Lemma main_grounded ext w s :
  never_none ext → grounded s → grounded (after (main ext w) s).
Proof.
  intros Hext Hg. rewrite after_eq, main_unfold.
  destruct (start_button w && truthy (input_text w)) eqn:Hgo.
  - apply andb_true_iff in Hgo as [Hb Hin].
    assert (input_text w ≠ []) as Hne by (by destruct (input_text w)).
    rewrite bind_unfold, start_analysis_run
      by (done || apply initialized_has_extractor).
    cbv zeta. destruct (ext (input_text w)) as [[r|]|e] eqn:He.
    + intros _. by rewrite (rest_current_state w _).
    + by destruct (Hext (input_text w)).
    + by apply grounded_initialized.
  - erewrite bind_ok by by apply start_analysis_skip.
    destruct (populated (current_state s)) eqn:Hcs.
    + intros _. rewrite (rest_current_state w _). cbn.
      by destruct (current_state s) as [[?|]|].
    + assert (populated (concept_matrix s) = false) as Hc.
      { destruct (populated (concept_matrix s)) eqn:Hc; [|done].
        pose proof (Hg (or_introl Hc)). congruence. }
      rewrite bind_unfold, review_hidden.
      * rewrite display_final_results_store. by apply grounded_initialized.
      * by eexists.
      * by eexists.
      * cbn. by destruct (concept_matrix s) as [[?|]|].
Qed.

Lemma runs_grounded steps s :
  Forall (λ step, never_none step.1) steps → grounded s →
  grounded (runs steps s).
Proof.
  intros Hsteps. revert s.
  induction Hsteps as [|[ext w] steps Hext _ IH]; intros s Hs; [done|].
  apply IH. by apply main_grounded.
Qed.

(** X13: in a session built by runs of the script from a new session,
    with extractors that never return [None], a run ends with an
    exception only when Start Analysis is clicked on a non-empty text and
    the extractor raises, and then with that exception; every other run
    returns. *)
Theorem run_raises_extractor_errors_only steps ext w :
  Forall (λ step, never_none step.1) steps → never_none ext →
  outcome (main ext w) (runs steps fresh)
  = if start_button w && truthy (input_text w)
    then match ext (input_text w) with
         | Raise e => Raise e
         | Ok _ => Ok tt
         end
    else Ok tt.
Proof.
  intros Hsteps Hext.
  pose proof (runs_grounded steps fresh Hsteps) as Hg.
  assert (grounded (runs steps fresh)) as Hs by (by apply Hg; intros [|]).
  clear Hg. generalize dependent (runs steps fresh). intros s Hs.
  apply grounded_initialized in Hs.
  rewrite outcome_eq, main_unfold.
  destruct (start_button w && truthy (input_text w)) eqn:Hgo.
  - apply andb_true_iff in Hgo as [Hb Hin].
    assert (input_text w ≠ []) as Hne by (by destruct (input_text w)).
    rewrite bind_unfold, start_analysis_run
      by (done || apply initialized_has_extractor).
    cbv zeta. destruct (ext (input_text w)) as [[r|]|e] eqn:He.
    + eapply rest_returns; try reflexivity. by intros _.
    + by destruct (Hext (input_text w)).
    + done.
  - erewrite bind_ok by by apply start_analysis_skip.
    by eapply rest_returns.
Qed.

Lemma run_raises_extractor_errors_only_witness :
  outcome (main Sample.answers Sample.idle)
    (runs [(Sample.answers, Sample.click_start (of_string "idea"));
           (Sample.answers, Sample.click_approve);
           (Sample.fails, Sample.click_start (of_string "idea"))] fresh)
  = Ok tt.
Proof.
  apply (run_raises_extractor_errors_only
           [(Sample.answers, Sample.click_start (of_string "idea"));
            (Sample.answers, Sample.click_approve);
            (Sample.fails, Sample.click_start (of_string "idea"))]
           Sample.answers Sample.idle).
  - repeat (apply List.Forall_cons; [by intros text|]). apply List.Forall_nil.
  - by intros text.
Defined.

(** ** The extractor is constructed once *)

Lemma constructions_snoc t e :
  constructions (t ++ [e])
  = constructions t + match e with NewExtractor => 1 | _ => 0 end.
Proof.
  unfold constructions. rewrite omap_app, length_app. by destruct e.
Qed.

Ltac stable_constructions :=
  repeat lazymatch goal with
  | |- stable _ (_ ≫= _) => apply stable_bind; [|intros ?]
  | |- stable _ (setattr _) =>
      apply stable_setattr; intros [? ?]; reflexivity
  | |- stable _ (emit _) =>
      apply stable_emit; intros [? ?]; cbn [store trace];
      rewrite constructions_snoc; apply Nat.add_0_r
  | |- stable _ (extract_keywords _ _) =>
      apply stable_extract; intros [? ?]; cbn [store trace];
      rewrite constructions_snoc; apply Nat.add_0_r
  | |- stable _ (if _ then _ else _) => apply stable_if
  | |- stable _ (for_each _ _) => apply stable_for_each; intros ?
  | |- stable _ _ => solve [eauto with stable]
  end.

Lemma start_analysis_constructions ext w :
  stable (λ W, constructions (trace W)) (start_analysis ext w).
Proof. unfold_blocks. stable_constructions. Qed.

Lemma review_constructions w :
  stable (λ W, constructions (trace W)) (review w).
Proof. unfold_blocks. cbv zeta. stable_constructions. Qed.

Lemma display_final_results_constructions :
  stable (λ W, constructions (trace W)) display_final_results.
Proof. unfold_blocks. stable_constructions. Qed.

(** X14: a run constructs the extractor when the session has none, once
    and before anything else, and never when the session has one; after
    any run the session has one, so only the first run of a session
    constructs it. *)
Theorem extractor_constructed_once ext w s :
  constructions (shown (main ext w) s)
  = match extractor s with Some _ => 0 | None => 1 end
  ∧ is_Some (extractor (after (main ext w) s))
  ∧ constructions (shown (main ext w) (after (main ext w) s)) = 0.
Proof.
  assert (Hcount : ∀ x, constructions (shown (main ext w) x)
                        = match extractor x with Some _ => 0 | None => 1 end).
  { intros x. rewrite shown_eq, main_unfold.
    rewrite (main_stable (λ W, constructions (trace W))).
    - unfold init_events. by destruct (extractor x).
    - apply start_analysis_constructions.
    - apply review_constructions.
    - apply display_final_results_constructions. }
  assert (Hext : is_Some (extractor (after (main ext w) s))).
  { rewrite after_eq, main_unfold.
    rewrite (main_stable (λ W, extractor (store W))); [by eexists | | |].
    - apply start_analysis_extractor.
    - apply review_extractor.
    - apply stable_store_proj, display_final_results_store. }
  split_and!; [apply Hcount | done |].
  rewrite Hcount. by destruct Hext as [h ->].
Qed.

(** ** More on the single actions *)

(** X15: when the extractor returns [None] instead of a result, the run
    ends with [AttributeError] after [current_state] was overwritten
    with [None]: the concept matrix and the seed keywords of the earlier
    analysis stay in the session, without the result they came from. *)
Theorem none_answer_clears_current_state ext w s :
  start_button w = true → input_text w ≠ [] → ext (input_text w) = Ok None →
  outcome (main ext w) s = Raise (AttributeError "get")
  ∧ after (main ext w) s = set_current_state None (initialized s).
Proof.
  intros Hb Hin Hext.
  assert (Hrun : ∃ t, main ext w (mkWorld s [])
    = (Raise (AttributeError "get"),
       mkWorld (set_current_state None (initialized s)) t)).
  { eexists. rewrite main_unfold. erewrite bind_raise; [reflexivity|].
    rewrite start_analysis_run by (done || apply initialized_has_extractor).
    cbv zeta. by rewrite Hext. }
  destruct Hrun as [t Hrun]. by rewrite outcome_eq, after_eq, Hrun.
Qed.

Lemma none_answer_clears_current_state_witness :
  let s' := after (main Sample.returns_none (Sample.click_start (of_string "idea")))
              Sample.analyzed in
  current_state s' = Some None ∧ concept_matrix s' = Some (Some Sample.matrix).
Proof.
  cbv zeta.
  destruct (none_answer_clears_current_state Sample.returns_none
              (Sample.click_start (of_string "idea")) Sample.analyzed)
    as [_ ->]; [reflexivity | done | reflexivity |].
  split; reflexivity.
Defined.

(** X16: a click on Reject without Submit Feedback records nothing: the
    run ends with the initialised session, whatever text is in the
    feedback area. *)
Theorem reject_without_submit_records_nothing ext w s :
  reject_button w = true → submit_button w = false →
  start_button w = false → approve_button w = false → edit_button w = false →
  populated (concept_matrix s) = true → populated (seed_keywords s) = true →
  after (main ext w) s = initialized s.
Proof.
  intros Hr Hs Hb Ha He Hc Hk.
  destruct (main_actions ext w s) as (t & -> & _); try done.
  unfold actions. by rewrite Ha, Hr, Hs, He.
Qed.

Lemma reject_without_submit_records_nothing_witness :
  let w := mkWidgets [] false false true (of_string "too broad") false false ∅ false in
  after (main Sample.answers w) Sample.analyzed = Sample.analyzed.
Proof.
  cbv zeta.
  rewrite (reject_without_submit_records_nothing Sample.answers); reflexivity.
Defined.

(** X17: an approval shows the results in the same run: when Approve is
    clicked and the current state already holds a non-empty result
    list, the run returns and what it shows ends with the results
    section, one entry per result in the order of the list. *)
Theorem approval_shows_results_at_once ext w s r entries :
  approve_button w = true → start_button w = false →
  reject_button w = false → edit_button w = false →
  populated (concept_matrix s) = true → populated (seed_keywords s) = true →
  current_state s = Some (Some r) → r_final_url r = Some entries →
  entries ≠ [] →
  outcome (main ext w) s = Ok tt
  ∧ ∃ t, shown (main ext w) s
         = t ++ [Markdown (of_string "---");
                 Subheader (127919%N :: of_string " Search Results")]
             ++ concat (map result_entry entries).
Proof.
  intros Ha Hb Hr He [c Hc]%populated_Some [k Hk]%populated_Some Hcs Hfu Hne.
  destruct (review_visible w
              (mkWorld (initialized s) ([] ++ init_events s ++ header)) c k)
    as (t & _ & Et); [by cbn; rewrite Hc | by cbn; rewrite Hk |].
  assert (Hrun : ∃ W, main ext w (mkWorld s []) = display_final_results W
                      ∧ keywords_approved (store W) = Some true
                      ∧ current_state (store W) = Some (Some r)).
  { eexists. split.
    - rewrite main_unfold.
      erewrite bind_ok by by apply start_analysis_skip; rewrite Hb.
      erewrite bind_ok; [reflexivity|].
      rewrite Et. unfold actions. rewrite Ha, Hr, He.
      erewrite bind_ok by apply approve_run.
      by erewrite bind_ok by reflexivity.
    - split; [reflexivity|]. cbn. by rewrite Hcs. }
  destruct Hrun as (W & Hrun & HW1 & HW2).
  rewrite outcome_eq, shown_eq, Hrun.
  rewrite (display_final_results_run W r entries) by done.
  split; [done|]. by exists (trace W).
Qed.

Lemma approval_shows_results_at_once_witness :
  outcome (main Sample.answers Sample.click_approve) Sample.analyzed = Ok tt
  ∧ length (shown (main Sample.answers Sample.click_approve) Sample.analyzed) = 28.
Proof.
  destruct (approval_shows_results_at_once Sample.answers Sample.click_approve
              Sample.analyzed Sample.results
              (default [] (r_final_url Sample.results)))
    as [Ho _]; [reflexivity..|done|].
  split; [exact Ho | vm_compute; reflexivity].
Defined.

(** ** An extractor failure is not handled *)

(** C3, as stated, fails: the run in which the extractor raises ends
    with that exception, uncaught, and shows the header and nothing
    else; the script shows no message about the error. *)
Lemma extractor_failure_is_uncaught :
  let w := Sample.click_start (of_string "idea") in
  Sample.fails (input_text w) = Raise (ExtractorError "timeout")
  ∧ outcome (main Sample.fails w) Sample.analyzed
    = Raise (ExtractorError "timeout")
  ∧ shown (main Sample.fails w) Sample.analyzed
    = header ++ [ExtractKeywords (of_string "idea")].
Proof. vm_compute. done. Qed.

(** ** The final results on the sessions the script reaches *)

(** C4, as the script has it: showing the final results shows nothing
    and returns when the keywords are not approved, whatever the current
    state is, and when they are approved and the current state is a
    result without a non-empty result list. Every session that runs of
    the script reach from a new one, with extractors that return a
    result or raise, is of one of these two kinds whenever it is not
    approved with results to show. *)
Theorem display_final_results_noop_unless_ready steps :
  Forall (λ step, never_none step.1) steps →
  (∀ W, keywords_approved (store W) = Some false
        ∨ (keywords_approved (store W) = Some true
           ∧ ∃ r, current_state (store W) = Some (Some r)
                  ∧ nonempty (r_final_url r) = false) →
        display_final_results W = (Ok tt, W))
  ∧ let s := initialized (runs steps fresh) in
    (approved s && has_results s = false →
     run display_final_results s = (Ok tt, s, [])).
Proof.
  intros Hsteps. split; [apply display_final_results_noop|].
  cbv zeta. intros Hnot.
  assert (grounded (initialized (runs steps fresh))) as Hg.
  { apply grounded_initialized, runs_grounded; [done | by intros [|]]. }
  unfold run. rewrite display_final_results_noop; [done|].
  cbn [store]. revert Hnot Hg. unfold approved, has_results, grounded.
  generalize (runs steps fresh). intros s. cbn.
  destruct (keywords_approved s) as [[|]|]; cbn; intros Hnot Hg;
    [|by left|by left].
  right. split; [done|].
  specialize (Hg (or_intror eq_refl)).
  destruct (current_state s) as [[r|]|]; try done. by exists r.
Qed.

Lemma display_final_results_noop_unless_ready_witness :
  let s := runs [(Sample.answers, Sample.click_start (of_string "idea"));
                 (Sample.fails, Sample.click_start (of_string "other"))] fresh in
  run display_final_results s = (Ok tt, s, []).
Proof.
  cbv zeta.
  destruct (display_final_results_noop_unless_ready
              [(Sample.answers, Sample.click_start (of_string "idea"));
               (Sample.fails, Sample.click_start (of_string "other"))])
    as [_ H].
  - repeat (apply List.Forall_cons; [by intros text|]). apply List.Forall_nil.
  - apply H. reflexivity.
Defined.
